(** * rag_basic: a shallow embedding of the retrieval pipeline samples

  The development follows the Python sources:
  - [samples/rag_basic/chunker.py]       ([simple_chunk_text])
  - [samples/rag_basic/embedder.py]      ([embed_text], lines 78-97 of [main])
  - [samples/rag_basic/store_manager.py] ([QwenEmbeddings.embed_documents])
  - [samples/rag_basic/llm_with_rag.py]  ([make_prompt])
  - [samples/rag_basic/extractor.py]     ([extract_pdf] and its siblings)
  - [samples/quickstart/rag_basic.py]    (the chunking loop, [build_prompt])

  Python [str] values are sequences of Unicode code points, Python [int]s
  are [Z], [while] loops carry explicit fuel, raised exceptions are values
  of an error type, and calls that leave the process (the embedding
  provider, the file system, the document libraries) are section
  variables. *)

From Stdlib Require Import ZArith NArith Lia Bool List.
From Stdlib Require Import Ascii String.
From stdpp Require Import base list gmap strings.

(** ** Python strings *)

Module PyStr.

(** A [str] is a list of code points. *)
Abbreviation str := (list N).

(** [str.isspace] for one character, the table behind [str.strip()]:
    the ASCII controls 0x09-0x0D and 0x1C-0x1F, the space, and the
    Unicode white space characters. *)
Definition isspace (c : N) : bool :=
  ((9 <=? c) && (c <=? 13))%N || ((28 <=? c) && (c <=? 32))%N
  || (c =? 133)%N || (c =? 160)%N || (c =? 5760)%N
  || ((8192 <=? c) && (c <=? 8202))%N
  || (c =? 8232)%N || (c =? 8233)%N || (c =? 8239)%N
  || (c =? 8287)%N || (c =? 12288)%N.

(** [s.lstrip(chars)]: drop the leading characters that satisfy [p]. *)
Fixpoint lstrip_by (p : N -> bool) (s : str) : str :=
  match s with
  | [] => []
  | c :: s' => if p c then lstrip_by p s' else s
  end.

(** [s.rstrip(chars)]: the longest prefix whose last character fails [p]. *)
Fixpoint rstrip_by (p : N -> bool) (s : str) : str :=
  match s with
  | [] => []
  | c :: s' =>
      match rstrip_by p s' with
      | [] => if p c then [] else [c]
      | r => c :: r
      end
  end.

(** [s.strip()]: white space is removed at both ends. *)
Definition strip (s : str) : str := rstrip_by isspace (lstrip_by isspace s).

(** [len(s)] *)
Definition len {A} (s : list A) : Z := Z.of_nat (length s).

(** Truth value of a sequence: [if s:] *)
Definition truthy {A} (s : list A) : bool :=
  match s with [] => false | _ => true end.

(** [s[a:b]] with Python's treatment of negative and oversized bounds. *)
Definition clamp_index (L i : Z) : Z :=
  if (i <? 0)%Z then Z.max (i + L) 0 else Z.min i L.

Definition slice {A} (s : list A) (a b : Z) : list A :=
  let lo := clamp_index (len s) a in
  let hi := clamp_index (len s) b in
  take (Z.to_nat (hi - lo)) (drop (Z.to_nat lo) s).

(** Source literals are written as UTF-8 text and decoded to code points. *)
Fixpoint utf8_decode (bs : list N) : str :=
  match bs with
  | [] => []
  | b0 :: r0 =>
      if (b0 <? 128)%N then b0 :: utf8_decode r0
      else if (b0 <? 224)%N then
        match r0 with
        | b1 :: r1 => ((b0 mod 32) * 64 + b1 mod 64)%N :: utf8_decode r1
        | _ => []
        end
      else if (b0 <? 240)%N then
        match r0 with
        | b1 :: b2 :: r2 =>
            ((b0 mod 16) * 4096 + (b1 mod 64) * 64 + b2 mod 64)%N
              :: utf8_decode r2
        | _ => []
        end
      else
        match r0 with
        | b1 :: b2 :: b3 :: r3 =>
            ((b0 mod 8) * 262144 + (b1 mod 64) * 4096
             + (b2 mod 64) * 64 + b3 mod 64)%N :: utf8_decode r3
        | _ => []
        end
  end.

Definition py (s : string) : str :=
  utf8_decode (map N_of_ascii (list_ascii_of_string s)).

(** [str(n)] for a non-negative integer. *)
Fixpoint digits (d : Decimal.uint) : str :=
  match d with
  | Decimal.Nil => []
  | Decimal.D0 d => 48%N :: digits d
  | Decimal.D1 d => 49%N :: digits d
  | Decimal.D2 d => 50%N :: digits d
  | Decimal.D3 d => 51%N :: digits d
  | Decimal.D4 d => 52%N :: digits d
  | Decimal.D5 d => 53%N :: digits d
  | Decimal.D6 d => 54%N :: digits d
  | Decimal.D7 d => 55%N :: digits d
  | Decimal.D8 d => 56%N :: digits d
  | Decimal.D9 d => 57%N :: digits d
  end.

Definition str_of_nat (n : nat) : str := digits (Nat.to_uint n).

(** [sep.join(parts)] *)
Fixpoint join (sep : str) (parts : list str) : str :=
  match parts with
  | [] => []
  | [p] => p
  | p :: ps => p ++ sep ++ join sep ps
  end.

(** The line feed and the ASCII double quote. *)
Definition LF : str := [10%N].
Definition DQUOTE : str := [34%N].

End PyStr.

Import PyStr.

(** ** Exceptions and results *)

Inductive exn : Type :=
| ValueError (msg : str)
| RuntimeError (msg : str)
| IndexError (msg : str)
| FileNotFoundError (msg : str)
| UnicodeDecodeError (msg : str)
| ParserError (msg : str)
| ZeroDivisionError (msg : str)
| OtherError (msg : str).

Inductive result (A : Type) : Type :=
| Ok (a : A)
| Raise (e : exn).
Arguments Ok {A} a.
Arguments Raise {A} e.

(** One pass through a loop body either goes on with a new state or leaves
  the loop. *)
Inductive flow (S R : Type) : Type :=
| Continue (s : S)
| Break (r : R).
Arguments Continue {S R} s.
Arguments Break {S R} r.

(** ** chunker.py *)

Module Chunker.

Local Open Scope Z_scope.

(** The body of the [while] loop of [simple_chunk_text], lines 31-40. *)
Definition chunk_step (text : str) (chunk_size overlap : Z)
    (start : Z) (chunks : list str) : flow (Z * list str) (list str) :=
  let L := len text in
  let end_ := Z.min (start + chunk_size) L in
  let chunk := strip (slice text start end_) in
  let chunks := if truthy chunk then chunks ++ [chunk] else chunks in
  let start := end_ - overlap in
  let start := if start <? 0 then 0 else start in
  if (start >=? L) || (end_ =? L) then Break chunks
  else Continue (start, chunks).

(** [while start < L: ...]; [fuel] bounds the number of passes and
    [None] means it ran out. *)
Fixpoint chunk_loop (fuel : nat) (text : str) (chunk_size overlap : Z)
    (start : Z) (chunks : list str) : option (list str) :=
  if start <? len text then
    match fuel with
    | O => None
    | S fuel' =>
        match chunk_step text chunk_size overlap start chunks with
        | Break r => Some r
        | Continue (start', chunks') =>
            chunk_loop fuel' text chunk_size overlap start' chunks'
        end
    end
  else Some chunks.

Definition simple_chunk_text (fuel : nat) (text : str)
    (chunk_size overlap : Z) : option (result (list str)) :=
  if chunk_size <=? 0 then
    Some (Raise (ValueError (py "chunk_size must be > 0")))
  else if overlap >=? chunk_size then
    Some (Raise (ValueError (py "overlap must be < chunk_size")))
  else
    match chunk_loop fuel text chunk_size overlap 0 [] with
    | Some chunks => Some (Ok chunks)
    | None => None
    end.

(** Fragment [frag] covers position [i] of [text]: it is the slice of
    [text] at some offset [p] and [i] falls inside it. *)
Definition covers (text frag : str) (i : nat) : Prop :=
  exists p : nat,
    (p <= i < p + length frag)%nat /\ take (length frag) (drop p text) = frag.

(** Every character that is not white space and sits below [bound] is
    covered by one of [chunks]. *)
Definition covered_below (text : str) (chunks : list str) (bound : Z) : Prop :=
  forall (i : nat) (c : N),
    Z.of_nat i < bound -> text !! i = Some c -> isspace c = false ->
    exists frag, frag ∈ chunks /\ covers text frag i.

End Chunker.

Import Chunker.

(** ** embedder.py and store_manager.py *)

Module Embedder.

Local Open Scope Z_scope.

Definition EMBED_MODEL : str := py "text-embedding-v4".
Definition DEFAULT_TOP_RERANK : Z := 10.

(** [range(start, stop, step)] for a positive [step]. *)
Definition range (start stop step : Z) : list Z :=
  map (fun k : nat => start + Z.of_nat k * step)
      (seq 0 (Z.to_nat ((stop - start + step - 1) / step))).

(** Computations that call the provider: the state is the log of the
    batches sent so far, the outcome a value or a raised exception. *)
Definition io (A : Type) : Type :=
  list (list str) -> list (list str) * result A.

Definition io_ret {A} (a : A) : io A := fun log => (log, Ok a).

Definition io_raise {A} (e : exn) : io A := fun log => (log, Raise e).

Definition io_bind {A B} (c : io A) (k : A -> io B) : io B :=
  fun log =>
    match c log with
    | (log', Ok a) => k a log'
    | (log', Raise e) => (log', Raise e)
    end.

Declare Scope io_scope.
Delimit Scope io_scope with io.
Notation "x <- c ;; k" := (io_bind c (fun x => k))
  (at level 100, c at next level, right associativity) : io_scope.

(** [for x in xs: s = body(x, s)] *)
Fixpoint for_in {A S} (xs : list A) (body : A -> S -> io S) (s : S) : io S :=
  match xs with
  | [] => io_ret s
  | x :: xs' => io_bind (body x s) (for_in xs' body)
  end.

(** The batches [embed_text] and [embed_documents] set out to send for
    [texts]: the windows [texts[i:i+10]] of the loop, or the whole list
    when it has at most 10 texts. *)
Definition planned_batches (texts : list str) : list (list str) :=
  if len texts >? DEFAULT_TOP_RERANK then
    map (fun i => slice texts i (i + DEFAULT_TOP_RERANK))
        (range 0 (len texts) DEFAULT_TOP_RERANK)
  else [texts].

Section Provider.

(** A vector is a list of floats; the floats themselves are never
    inspected. *)
Context {float : Type}.
Abbreviation vector := (list float).

(** [client.embeddings.create(model=..., input=batch)], read through
    [[item.embedding for item in res.data]]. *)
Variable create : str -> list str -> result (list vector).

Definition embeddings_create (model : str) (batch : list str)
    : io (list vector) :=
  fun log => (log ++ [batch], create model batch).

(** store_manager.py, [QwenEmbeddings.embed_documents], lines 28-42. *)
Definition embed_documents (texts : list str) : io (list vector) :=
  (if len texts >? DEFAULT_TOP_RERANK then
     for_in (range 0 (len texts) DEFAULT_TOP_RERANK)
       (fun i embeddings =>
          let batch := slice texts i (i + DEFAULT_TOP_RERANK) in
          res <- embeddings_create EMBED_MODEL batch ;;
          io_ret (embeddings ++ res))
       []
   else
     res <- embeddings_create EMBED_MODEL texts ;;
     io_ret res)%io.

(** [QwenEmbeddings.embed_query], lines 44-47. *)
Definition embed_query (text : str) : io vector :=
  (res <- embeddings_create EMBED_MODEL [text] ;;
   match res with
   | v :: _ => io_ret v
   | [] => io_raise (IndexError (py "list index out of range"))
   end)%io.

(** embedder.py, [embed_text]: the argument is one string or a list of
    strings, the value one vector or a list of vectors. *)
Inductive texts_arg : Type :=
| OneText (s : str)
| ManyTexts (l : list str).

Inductive embed_value : Type :=
| OneVector (v : vector)
| ManyVectors (l : list vector).

Definition embed_text (texts : texts_arg) (model : str) : io embed_value :=
  (let '(texts, single_input) :=
     match texts with
     | OneText s => ([s], true)
     | ManyTexts l => (l, false)
     end in
   embeddings <-
     (if len texts >? DEFAULT_TOP_RERANK then
        for_in (range 0 (len texts) DEFAULT_TOP_RERANK)
          (fun i embeddings =>
             let batch := slice texts i (i + DEFAULT_TOP_RERANK) in
             res <- embeddings_create model batch ;;
             io_ret (embeddings ++ res))
          []
      else
        res <- embeddings_create model texts ;;
        io_ret res) ;;
   if single_input then
     match embeddings with
     | v :: _ => io_ret (OneVector v)
     | [] => io_raise (IndexError (py "list index out of range"))
     end
   else io_ret (ManyVectors embeddings))%io.

(** [len(vectors)] on the value of [embed_text]. *)
Definition value_len (v : embed_value) : Z :=
  match v with
  | OneVector v => len v
  | ManyVectors l => len l
  end.

(** [sum(len(t) for t in texts) / len(texts)]: the quotient is only
    printed, the division raises for an empty list. *)
Definition average_length (texts : list str) : io unit :=
  if len texts =? 0 then io_raise (ZeroDivisionError (py "division by zero"))
  else io_ret tt.

(** embedder.py, [main], lines 78-97, from the loaded [texts] on and
    without the console output: the average length of line 78, the call of
    line 92 and the count check that follows it. *)
Definition main_vectorize (texts : list str) : io embed_value :=
  (_ <- average_length texts ;;
   vectors <- embed_text (ManyTexts texts) EMBED_MODEL ;;
   if negb (value_len vectors =? len texts) then
     io_raise (RuntimeError (py "embeddings 数量与文本数量不一致"))
   else io_ret vectors)%io.

End Provider.

End Embedder.

(** ** llm_with_rag.py and the prompt of quickstart/rag_basic.py *)

Module Prompt.

(** A retrieved document as the prompt code probes it: the attributes
    [page_content], [content] and [metadata] may be absent, [str(d)] always
    exists. *)
Record doc : Type := mkDoc {
  page_content : option str;
  content : option str;
  doc_str : str;
  metadata : option (gmap str str)
}.

(** [enumerate(xs, start)] *)
Fixpoint enumerate {A} (start : nat) (xs : list A) : list (nat * A) :=
  match xs with
  | [] => []
  | x :: xs' => (start, x) :: enumerate (S start) xs'
  end.

(** [d.metadata.get("source", "unknown") if hasattr(d, "metadata") else
    "unknown"] *)
Definition doc_source (d : doc) : str :=
  match metadata d with
  | Some m => default (py "unknown") (m !! py "source")
  | None => py "unknown"
  end.

(** [f"[片段 {i} | 来源: {src}]\n{text}\n"] *)
Definition part (i : nat) (src text : str) : str :=
  py "[片段 " ++ str_of_nat i ++ py " | 来源: " ++ src ++ py "]" ++ LF
  ++ text ++ LF.

(** [getattr(d, "page_content", getattr(d, "content", str(d)))] *)
Definition doc_text (d : doc) : str :=
  match page_content d with
  | Some t => t
  | None => match content d with Some t => t | None => doc_str d end
  end.

(** [getattr(d, "page_content", str(d))] *)
Definition doc_page_text (d : doc) : str :=
  match page_content d with
  | Some t => t
  | None => doc_str d
  end.

(** llm_with_rag.py, [make_prompt], lines 26-38. *)
Definition make_prompt (query : str) (docs : list doc) : str :=
  let parts :=
    map (fun '(i, d) =>
           let text := doc_text d in
           let src := doc_source d in
           part i src text)
        (enumerate 1 docs) in
  let context := join LF parts in
  py "下面是检索到的知识片段（仅供参考）。请**仅基于这些片段**回答用户问题，"
  ++ py "如果片段中没有相关信息，请回答“我不知道”。" ++ LF ++ LF
  ++ context ++ LF ++ py "用户问题：" ++ query ++ LF ++ LF
  ++ py "请给出简洁准确的回答，并在末尾列出引用来源。".

(** quickstart/rag_basic.py, [build_prompt], lines 198-227. *)
Definition build_prompt (query : str) (docs : list doc) : str :=
  if negb (truthy docs) then
    py "用户问题：" ++ query ++ LF ++ LF
    ++ py "注意：未检索到相关文档，请回答" ++ DQUOTE ++ py "我不知道" ++ DQUOTE
    ++ py "。"
  else
    let parts :=
      map (fun '(i, d) =>
             let text := doc_page_text d in
             let src := doc_source d in
             part i src text)
          (enumerate 1 docs) in
    let context := join LF parts in
    py "下面是检索到的知识片段（可能有冗余），请 **只基于这些片段** 回答问题。" ++ LF
    ++ py "如果片段中没有相关信息，请回答" ++ DQUOTE ++ py "我不知道" ++ DQUOTE
    ++ py "。" ++ LF ++ LF
    ++ py "已检索到的片段：" ++ LF ++ context ++ LF ++ LF
    ++ py "用户问题：" ++ query ++ LF ++ LF
    ++ py "请给出简洁准确的回答，并在最后列出引用来源（文件名和片段编号）。".

(** The wording by which the prompts are recognised: the notice that
    nothing was retrieved, the marker to answer with when the answer is
    unknown, the restriction to only the supplied fragments as
    [make_prompt] and as [build_prompt] word it, the request to list the
    cited sources, the same request by file name and fragment number, and
    the line that introduces the query. *)
Definition NOTHING_FOUND : str := py "未检索到相关文档".
Definition UNKNOWN_MARKER : str := py "我不知道".
Definition ONLY_THESE_MAKE : str := py "请**仅基于这些片段**回答用户问题".
Definition ONLY_THESE_BUILD : str := py "请 **只基于这些片段** 回答问题".
Definition CITE_SOURCES : str := py "列出引用来源".
Definition CITE_BY_LABEL : str := py "列出引用来源（文件名和片段编号）".
Definition QUESTION : str := py "用户问题：".

(** [pat] occurs in [s]. *)
Definition occurs_in (pat s : str) : Prop :=
  exists pre post : str, s = pre ++ pat ++ post.

Fixpoint starts_with (pat s : str) : bool :=
  match pat, s with
  | [], _ => true
  | _ :: _, [] => false
  | a :: pat', b :: s' => (a =? b)%N && starts_with pat' s'
  end.

Fixpoint occurs_inb (pat s : str) : bool :=
  starts_with pat s ||
  match s with
  | [] => false
  | _ :: s' => occurs_inb pat s'
  end.

(** [pat] occurs in [s] somewhere after an occurrence of [block]. *)
Definition occurs_after (block pat s : str) : Prop :=
  exists pre post : str, s = pre ++ block ++ post /\ occurs_in pat post.

Fixpoint occurs_afterb (block pat s : str) : bool :=
  (starts_with block s && occurs_inb pat (drop (length block) s)) ||
  match s with
  | [] => false
  | _ :: s' => occurs_afterb block pat s'
  end.

(** Two retrieved fragments for the examples: one as the vector store
    returns it, one without [page_content] and without [metadata]. *)
Definition manual_doc : doc :=
  mkDoc (Some (py "更换电池前请先关闭电源。")) None (py "Document(manual)")
        (Some {[ py "source" := py "manual.pdf" ]}).

Definition bare_doc : doc :=
  mkDoc None (Some (py "电池型号为 CR2032。")) (py "Document(bare)") None.

End Prompt.

(** ** extractor.py *)

Module Extractor.

Definition rbind {A B} (c : result A) (k : A -> result B) : result B :=
  match c with
  | Ok a => k a
  | Raise e => Raise e
  end.

Declare Scope result_scope.
Delimit Scope result_scope with result.
Notation "x <- c ;; k" := (rbind c (fun x => k))
  (at level 100, c at next level, right associativity) : result_scope.

(** [for x in xs: acc = body(x, acc)], where a pass may raise. *)
Fixpoint rfold {A S} (body : A -> S -> result S) (xs : list A) (s : S)
    : result S :=
  match xs with
  | [] => Ok s
  | x :: xs' => rbind (body x s) (rfold body xs')
  end.

(** [str(e)] *)
Definition exn_str (e : exn) : str :=
  match e with
  | ValueError m | RuntimeError m | IndexError m | FileNotFoundError m
  | UnicodeDecodeError m | ParserError m | ZeroDivisionError m
  | OtherError m => m
  end.

(** The two [except] clauses every extraction function ends with:
    [except FileNotFoundError as fnf_err] and [except Exception as e]. *)
Definition error_text (kind path : str) (e : exn) : str :=
  match e with
  | FileNotFoundError m => py "[ERROR] 文件未找到: " ++ m
  | _ =>
      py "[ERROR] 从 " ++ kind ++ py " '" ++ path ++ py "' 提取文本时出错: "
      ++ exn_str e
  end.

Definition is_tab (c : N) : bool := (c =? 9)%N.

(** The tag every error text starts with. *)
Definition ERROR_TAG : str := py "[ERROR]".

Section Files.

(** The world outside the module. *)
Context {dataframe bytes : Type}.
(** [os.path.exists] *)
Variable path_exists : str -> bool.
(** [os.path.splitext(file_path)[-1].lower()] *)
Variable path_ext : str -> str.
(** [pdfplumber.open(path).pages], each page read by [extract_text()]. *)
Variable pdf_pages : str -> result (list (result (option str))).
(** [pd.read_excel(path, sheet_name=None, header=None).items()]: the sheet
    name, [df.empty] and [df.to_string(index=False, header=False)]. *)
Variable read_excel : str -> result (list (str * bool * result str)).
(** [open(path, 'r', encoding='utf-8').read()] *)
Variable read_text : str -> result str.
(** The twelve [re.sub] rewrites of [extract_markdown], in order. *)
Variable strip_markdown : str -> result str.
(** [Document(path)]: the paragraph texts and, per table, per row, the cell
    texts. *)
Variable docx_document : str -> result (list str * list (list (list str))).
(** [pd.read_csv(path, encoding=..., on_bad_lines='skip')] *)
Variable read_csv : str -> option str -> result dataframe.
(** [df.to_string(index=False)] *)
Variable to_string : dataframe -> result str.
(** [open(path, 'rb').read()] and [chardet.detect(raw)['encoding']] *)
Variable read_bytes : str -> result bytes.
Variable chardet_detect : bytes -> result (option str).

(** The [try] block of [extract_pdf], lines 61-70. *)
Definition pdf_try (pdf_path : str) : result str :=
  (if negb (path_exists pdf_path) then
     Raise (FileNotFoundError (py "PDF 文件不存在: " ++ pdf_path))
   else
     pages <- pdf_pages pdf_path ;;
     rfold (fun page text_content =>
              page_text <- page ;;
              match page_text with
              | Some t =>
                  if truthy t then Ok (text_content ++ t ++ LF)
                  else Ok text_content
              | None => Ok text_content
              end)
           pages [])%result.

Definition extract_pdf (pdf_path : str) : str :=
  strip (match pdf_try pdf_path with
         | Ok text_content => text_content
         | Raise e => error_text (py "PDF") pdf_path e
         end).

(** The [try] block of [extract_excel], lines 99-120. *)
Definition excel_try (excel_path : str) : result str :=
  (if negb (path_exists excel_path) then
     Raise (FileNotFoundError (py "Excel 文件不存在: " ++ excel_path))
   else
     excel_data <- read_excel excel_path ;;
     acc <- rfold (fun '(sheet_name, empty, rendered) '(text_content, sheet_count) =>
                     if (empty : bool) then Ok (text_content, sheet_count)
                     else
                       body <- rendered ;;
                       Ok (text_content ++ LF ++ py "--- Sheet: " ++ sheet_name
                             ++ py " ---" ++ LF ++ body ++ LF,
                           (sheet_count + 1)%Z))
                  excel_data ([], 0%Z) ;;
     let '(text_content, sheet_count) := acc in
     if (sheet_count =? 0)%Z then Ok (py "[INFO] Excel文件中没有数据内容")
     else Ok text_content)%result.

Definition extract_excel (excel_path : str) : str :=
  strip (match excel_try excel_path with
         | Ok text_content => text_content
         | Raise e => error_text (py "Excel") excel_path e
         end).

(** The [try] block of [extract_markdown], lines 150-183. *)
Definition markdown_try (md_path : str) : result str :=
  (if negb (path_exists md_path) then
     Raise (FileNotFoundError (py "Markdown 文件不存在: " ++ md_path))
   else
     text_content <- read_text md_path ;;
     strip_markdown text_content)%result.

Definition extract_markdown (md_path : str) : str :=
  strip (match markdown_try md_path with
         | Ok text_content => text_content
         | Raise e => error_text (py "Markdown") md_path e
         end).

(** The [try] block of [extract_word], lines 213-237. *)
Definition word_try (word_path : str) : result str :=
  (if negb (path_exists word_path) then
     Raise (FileNotFoundError (py "Word 文件不存在: " ++ word_path))
   else
     document <- docx_document word_path ;;
     let '(paragraphs, tables) := document in
     let text_content :=
       fold_left (fun text_content paragraph =>
                    if truthy (strip paragraph)
                    then text_content ++ paragraph ++ LF
                    else text_content)
                 paragraphs [] in
     Ok (fold_left
           (fun text_content table =>
              let text_content :=
                text_content ++ LF ++ py "[表格内容开始]" ++ LF in
              let text_content :=
                fold_left
                  (fun text_content row =>
                     let row_content :=
                       fold_left (fun row_content cell =>
                                    row_content ++ strip cell ++ [9%N])
                                 row [] in
                     text_content ++ rstrip_by is_tab row_content ++ LF)
                  table text_content in
              text_content ++ py "[表格内容结束]" ++ LF)
           tables text_content))%result.

Definition extract_word (word_path : str) : str :=
  strip (match word_try word_path with
         | Ok text_content => text_content
         | Raise e => error_text (py "Word") word_path e
         end).

(** The loop over [encodings] of [extract_csv], lines 276-284: a decoding
    or parsing error moves on to the next encoding, any other exception
    leaves the loop. *)
Fixpoint csv_try_encodings (csv_path : str) (encodings : list str)
    : result (option dataframe) :=
  match encodings with
  | [] => Ok None
  | encoding :: rest =>
      match read_csv csv_path (Some encoding) with
      | Ok df => Ok (Some df)
      | Raise (UnicodeDecodeError _) => csv_try_encodings csv_path rest
      | Raise (ParserError _) => csv_try_encodings csv_path rest
      | Raise e => Raise e
      end
  end.

(** The [try] block of [extract_csv], lines 267-297. *)
Definition csv_try (csv_path : str) : result str :=
  (if negb (path_exists csv_path) then
     Raise (FileNotFoundError (py "CSV 文件不存在: " ++ csv_path))
   else
     let encodings := [py "utf-8"; py "gbk"; py "gb2312"; py "latin-1"] in
     df <- csv_try_encodings csv_path encodings ;;
     df <- match df with
           | Some df => Ok df
           | None =>
               raw_data <- read_bytes csv_path ;;
               encoding <- chardet_detect raw_data ;;
               read_csv csv_path encoding
           end ;;
     to_string df)%result.

Definition extract_csv (csv_path : str) : str :=
  strip (match csv_try csv_path with
         | Ok text_content => text_content
         | Raise e => error_text (py "CSV") csv_path e
         end).


End Files.

End Extractor.

(** ** quickstart/only_llm.py *)

Module OnlyLLM.

Section Client.

Context {completion : Type}.
(** [client.chat.completions.create(model=model, messages=[system, user],
    stream=stream, temperature=0.1)], by model, prompt and stream flag. *)
Variable completions_create : str -> str -> bool -> result completion.
(** [completion.choices[0].message.content] *)
Variable message_content : completion -> result str.

(** What [chat_qwen] returns: the text of the answer, or for [stream=True]
    the generator over the completion, which runs only when consumed. *)
Inductive chat_value : Type :=
| Text (s : str)
| ContentStream (c : completion).

(** [chat_qwen], lines 6-35; the state is the log of the requests sent, each
    a model and a prompt. *)
Definition chat_qwen (prompt model : str) (stream : bool)
    (log : list (str * str)) : list (str * str) * result chat_value :=
  let log := log ++ [(model, prompt)] in
  match completions_create model prompt stream with
  | Raise e => (log, Raise e)
  | Ok completion =>
      if stream then (log, Ok (ContentStream completion))
      else
        match message_content completion with
        | Ok content => (log, Ok (Text content))
        | Raise _ => (log, Ok (Text (py "fail to response")))
        end
  end.

End Client.

Arguments Text {completion} s.
Arguments ContentStream {completion} c.

End OnlyLLM.

(** ** quickstart/rag_basic.py: the chunking loop *)

Module Quickstart.

Local Open Scope Z_scope.

Definition CHUNK_SIZE : Z := 500.
Definition CHUNK_OVERLAP : Z := 100.

Record raw_doc : Type := mkRawDoc { doc_text : str; doc_source : str }.

Record meta : Type := mkMeta { source : str; chunk_index : Z }.

(** The loop state: [start], [idx] and the two global lists. *)
Record state : Type := mkState {
  start : Z;
  idx : Z;
  chunks : list str;
  metadatas : list meta
}.

(** The body of the [while] loop, lines 71-87. *)
Definition chunk_step (doc : raw_doc) (st : state)
    : flow state (list str * list meta) :=
  let txt := doc_text doc in
  let end_ := Z.min (start st + CHUNK_SIZE) (len txt) in
  let chunk_text := strip (slice txt (start st) end_) in
  if negb (truthy chunk_text) then Break (chunks st, metadatas st)
  else
    let meta := mkMeta (doc_source doc) (idx st) in
    let chunks := chunks st ++ [chunk_text] in
    let metadatas := metadatas st ++ [meta] in
    let idx := idx st + 1 in
    let start :=
      if end_ - CHUNK_OVERLAP >? start st then end_ - CHUNK_OVERLAP
      else end_ in
    if start >=? len txt then Break (chunks, metadatas)
    else Continue (mkState start idx chunks metadatas).

(** [while start < len(txt): ...] with fuel. *)
Fixpoint chunk_loop (fuel : nat) (doc : raw_doc) (st : state)
    : option (list str * list meta) :=
  if start st <? len (doc_text doc) then
    match fuel with
    | O => None
    | S fuel' =>
        match chunk_step doc st with
        | Break r => Some r
        | Continue st' => chunk_loop fuel' doc st'
        end
    end
  else Some (chunks st, metadatas st).

(** One pass of [for doc in raw_docs], lines 67-87. *)
Definition chunk_doc (fuel : nat) (doc : raw_doc)
    (chunks : list str) (metadatas : list meta)
    : option (list str * list meta) :=
  chunk_loop fuel doc (mkState 0 0 chunks metadatas).

(** [for doc in raw_docs: ...], lines 63-87. *)
Fixpoint chunk_docs (fuel : nat) (raw_docs : list raw_doc)
    (chunks : list str) (metadatas : list meta)
    : option (list str * list meta) :=
  match raw_docs with
  | [] => Some (chunks, metadatas)
  | doc :: rest =>
      match chunk_doc fuel doc chunks metadatas with
      | Some (chunks', metadatas') => chunk_docs fuel rest chunks' metadatas'
      | None => None
      end
  end.

(** The loop started in [st0] arrives at its head in state [st]. *)
Inductive reaches (doc : raw_doc) (st0 : state) : state -> Prop :=
| reaches_here : reaches doc st0 st0
| reaches_next st st' :
    reaches doc st0 st ->
    start st < len (doc_text doc) ->
    chunk_step doc st = Continue st' ->
    reaches doc st0 st'.

Definition QWEN_MODEL : str := py "qwen3-max".

(** The dictionary [rag_query] returns. *)
Record rag_result {completion : Type} : Type := mkRagResult {
  answer : OnlyLLM.chat_value (completion := completion);
  sources : list str
}.
Arguments rag_result completion : clear implicits.

Section Rag.

Context {completion : Type}.
(** [retriever.invoke], for the module's own retriever. *)
Variable retriever : str -> result (list Prompt.doc).
Variable completions_create : str -> str -> bool -> result completion.
Variable message_content : completion -> result str.

(** [rag_query], lines 232-277; a retriever is the function behind its
    [invoke]. *)
Definition rag_query (query : str)
    (retriever_instance : option (str -> result (list Prompt.doc)))
    (model : str) (log : list (str * str))
    : list (str * str) * rag_result completion :=
  let retriever_instance :=
    match retriever_instance with
    | None => retriever
    | Some r => r
    end in
  let failed (e : exn) :=
    mkRagResult _
      (OnlyLLM.Text (py "查询失败: " ++ Extractor.exn_str e)) [] in
  match retriever_instance query with
  | Raise e => (log, failed e)
  | Ok docs =>
      if negb (truthy docs) then
        (log, mkRagResult _ (OnlyLLM.Text (py "未检索到相关文档，无法回答。")) [])
      else
        let prompt := Prompt.build_prompt query docs in
        match OnlyLLM.chat_qwen completions_create message_content
                prompt model false log with
        | (log, Raise e) => (log, failed e)
        | (log, Ok answer) =>
            let sources :=
              map (fun '(i, d) =>
                     let src := Prompt.doc_source d in
                     src ++ py " 片段 " ++ str_of_nat i)
                  (Prompt.enumerate 1 docs) in
            (log, mkRagResult _ answer sources)
        end
  end.

End Rag.

End Quickstart.

(** * Properties *)

(** ** Stripping and slicing *)

Section StripFacts.

Variable p : N -> bool.

Lemma lstrip_by_drop (s : str) :
  exists k : nat,
    lstrip_by p s = drop k s /\ k <= length s /\
    (forall j c, j < k -> s !! j = Some c -> p c = true).
Proof.
  induction s as [|c s IH]; simpl.
  - exists 0. repeat split; auto. intros; lia.
  - destruct (p c) eqn:Hc.
    + destruct IH as (k & Hk & Hle & Hws). exists (S k).
      repeat split; [exact Hk | lia |].
      intros [|j] d Hj Hd; simpl in Hd.
      * congruence.
      * apply (Hws j); [lia | exact Hd].
    + exists 0. repeat split; [lia |]. intros; lia.
Qed.

Lemma rstrip_by_take (s : str) :
  exists m : nat,
    rstrip_by p s = take m s /\ m <= length s /\
    (forall j c, m <= j -> s !! j = Some c -> p c = true).
Proof.
  induction s as [|c s IH]; simpl.
  - exists 0. repeat split; auto. intros j d _ Hd. discriminate Hd.
  - destruct IH as (m & Hm & Hle & Hws).
    destruct (rstrip_by p s) as [|x r] eqn:E.
    + assert (Hall : forall j d, s !! j = Some d -> p d = true).
      { intros j d Hd. symmetry in Hm. apply take_nil_inv in Hm as [->| ->].
        - apply (Hws j); [lia | exact Hd].
        - discriminate Hd. }
      destruct (p c) eqn:Hc.
      * exists 0. repeat split; [lia |].
        intros [|j] d _ Hd; simpl in Hd; [congruence | eauto].
      * exists 1. repeat split; [lia |].
        intros [|j] d Hj Hd; [lia | simpl in Hd; eauto].
    + exists (S m). simpl. rewrite <- Hm. repeat split; [lia |].
      intros [|j] d Hj Hd; [lia |]. simpl in Hd. apply (Hws j); [lia | exact Hd].
Qed.

End StripFacts.

(** [strip] returns a window of its argument that keeps every character
    that is not white space. *)
Lemma strip_window (s : str) :
  exists k m : nat,
    strip s = take m (drop k s) /\ k + m <= length s /\
    (forall j c, s !! j = Some c -> isspace c = false -> k <= j < k + m).
Proof.
  unfold strip.
  destruct (lstrip_by_drop isspace s) as (k & Hk & Hkl & Hkw).
  destruct (rstrip_by_take isspace (lstrip_by isspace s)) as (m & Hm & Hml & Hmw).
  rewrite Hk in Hm, Hml, Hmw. rewrite length_drop in Hml.
  exists k, m. rewrite Hk. repeat split; [exact Hm | lia | |].
  - destruct (decide (k <= j)) as [|Hlt]; [assumption |].
    rewrite (Hkw j c) in H0; [discriminate | lia | assumption].
  - destruct (decide (j < k + m)) as [|Hge]; [assumption |].
    assert (Hjk : k <= j).
    { destruct (decide (k <= j)) as [|Hlt]; [assumption |].
      rewrite (Hkw j c) in H0; [discriminate | lia | assumption]. }
    rewrite (Hmw (j - k) c) in H0; [discriminate | lia |].
    rewrite lookup_drop. replace (k + (j - k)) with j by lia. assumption.
Qed.

Lemma strip_nil_iff (s : str) :
  strip s = [] <-> Forall (fun c => isspace c = true) s.
Proof.
  destruct (strip_window s) as (k & m & Hs & Hlen & Hin). split.
  - intros He. apply Forall_lookup. intros j c Hc.
    destruct (isspace c) eqn:Hw; [reflexivity |].
    destruct (Hin j c Hc Hw) as [Hkj Hjm].
    rewrite Hs in He. apply (f_equal length) in He.
    rewrite length_take, length_drop in He. simpl in He. lia.
  - intros Hall. unfold strip. clear Hs Hlen Hin.
    assert (Hl : lstrip_by isspace s = []).
    { induction Hall as [|c s Hc _ IH]; simpl; [reflexivity |].
      rewrite Hc. exact IH. }
    rewrite Hl. reflexivity.
Qed.

Lemma slice_inside {A} (s : list A) (a b : Z) :
  (0 <= a)%Z -> (a <= b)%Z -> (b <= len s)%Z ->
  slice s a b = take (Z.to_nat (b - a)) (drop (Z.to_nat a) s).
Proof.
  intros Ha Hab Hb. unfold slice, clamp_index.
  destruct (Z.ltb_spec a 0); [lia |]. destruct (Z.ltb_spec b 0); [lia |].
  rewrite !Z.min_l by lia. reflexivity.
Qed.

Lemma slice_whole {A} (s : list A) (b : Z) :
  (len s <= b)%Z -> slice s 0 b = s.
Proof.
  intros Hb. unfold slice, clamp_index.
  destruct (Z.ltb_spec b 0); [unfold len in *; lia |].
  simpl. rewrite Z.min_r by lia. rewrite Z.min_l by (unfold len; lia).
  rewrite Z.sub_0_r. simpl. apply take_ge. unfold len. lia.
Qed.

(** ** The fixed-window chunker *)

Example chunk_scenario :
  simple_chunk_text 14 (py "AAAA BBBB CCCC") 5 1
  = Some (Ok [py "AAAA"; py "BBBB"; py "B CCC"; py "CC"]).
Proof. vm_compute. reflexivity. Qed.

Lemma covered_below_weaken text chunks chunks' b b' :
  (b' <= b)%Z -> (forall f, f ∈ chunks -> f ∈ chunks') ->
  covered_below text chunks b -> covered_below text chunks' b'.
Proof.
  intros Hb Hsub Hcov i c Hi Hc Hw.
  destruct (Hcov i c ltac:(lia) Hc Hw) as (f & Hf & Hcv). eauto.
Qed.

Section ChunkerFacts.

Local Open Scope Z_scope.

Variables (text : str) (chunk_size overlap : Z).
Hypothesis Hoverlap : overlap < chunk_size.

Lemma chunk_step_continue start chunks start' chunks' :
  chunk_step text chunk_size overlap start chunks = Continue (start', chunks') ->
  start < start' /\ start + chunk_size < len text.
Proof.
  unfold chunk_step.
  set (e := Z.min (start + chunk_size) (len text)).
  destruct (_ || _) eqn:Hcond; [discriminate |].
  intros [= <- _]. apply orb_false_iff in Hcond as [_ He].
  apply Z.eqb_neq in He.
  assert (e = start + chunk_size /\ start + chunk_size < len text) as [-> Hlt]
    by (subst e; lia).
  destruct (Z.ltb_spec (start + chunk_size - overlap) 0); lia.
Qed.

Lemma chunk_step_at_end start chunks :
  Z.min (start + chunk_size) (len text) = len text ->
  exists r, chunk_step text chunk_size overlap start chunks = Break r.
Proof.
  intros He. unfold chunk_step. rewrite He, Z.eqb_refl, orb_true_r. eauto.
Qed.

Lemma chunk_loop_total fuel :
  forall start chunks,
    (Z.to_nat (len text - start) <= fuel)%nat ->
    exists r, chunk_loop fuel text chunk_size overlap start chunks = Some r.
Proof.
  induction fuel as [|fuel IH]; intros start chunks Hfuel; simpl.
  - destruct (Z.ltb_spec start (len text)); [lia | eauto].
  - destruct (Z.ltb_spec start (len text)); [| eauto].
    destruct (chunk_step _ _ _ _ _) as [[start' chunks']|r] eqn:Hstep; [| eauto].
    apply chunk_step_continue in Hstep as [Hadv _].
    apply IH. lia.
Qed.

Lemma chunk_loop_fuel_mono fuel fuel' :
  forall start chunks r,
    (fuel <= fuel')%nat ->
    chunk_loop fuel text chunk_size overlap start chunks = Some r ->
    chunk_loop fuel' text chunk_size overlap start chunks = Some r.
Proof.
  revert fuel'. induction fuel as [|fuel IH]; intros fuel' start chunks r Hle.
  - destruct fuel'; simpl; destruct (start <? len text); congruence.
  - destruct fuel' as [|fuel']; [lia |]. simpl.
    destruct (start <? len text); [| congruence].
    destruct (chunk_step _ _ _ _ _) as [[start' chunks']|r']; [| congruence].
    apply IH. lia.
Qed.

(** The trimmed window is a slice of the text that keeps the characters of
    the window that are not white space. *)
Lemma window_covers start stop i c :
  0 <= start -> start <= Z.of_nat i < stop -> stop <= len text ->
  text !! i = Some c -> isspace c = false ->
  strip (slice text start stop) <> [] /\
  covers text (strip (slice text start stop)) i.
Proof.
  intros Hs Hi He Hc Hw.
  rewrite slice_inside by lia.
  set (s := Z.to_nat start). set (n := Z.to_nat (stop - start)).
  destruct (strip_window (take n (drop s text))) as (k & m & Hst & Hlen & Hin).
  assert (Hlk : take n (drop s text) !! (i - s)%nat = Some c).
  { rewrite lookup_take_lt by (subst s n; lia). rewrite lookup_drop.
    replace (s + (i - s))%nat with i by (subst s; lia). exact Hc. }
  destruct (Hin _ _ Hlk Hw) as [Hki Hik].
  rewrite length_take, length_drop in Hlen.
  assert (Hfrag : strip (take n (drop s text)) = take m (drop (s + k) text)).
  { rewrite Hst, take_drop_commute, take_take, Nat.min_l by lia.
    rewrite <- take_drop_commute, drop_drop. reflexivity. }
  assert (Hm : length (strip (take n (drop s text))) = m).
  { rewrite Hfrag, length_take, length_drop. unfold len in He. lia. }
  split.
  - intros Hnil. rewrite Hnil in Hm. simpl in Hm. lia.
  - exists (s + k)%nat. rewrite Hm. split; [lia |]. symmetry. exact Hfrag.
Qed.

Hypothesis Hsize : 0 < chunk_size.
Hypothesis Hoverlap0 : 0 <= overlap.

Lemma chunk_step_covers start chunks :
  0 <= start < len text ->
  covered_below text chunks start ->
  match chunk_step text chunk_size overlap start chunks with
  | Break r => covered_below text r (len text)
  | Continue (start', chunks') => 0 <= start' /\ covered_below text chunks' start'
  end.
Proof.
  intros Hstart Hcov. unfold chunk_step.
  set (e := Z.min (start + chunk_size) (len text)).
  set (chunk := strip (slice text start e)).
  set (chunks1 := if truthy chunk then chunks ++ [chunk] else chunks).
  assert (He : start < e <= len text) by (subst e; lia).
  assert (Hcov1 : covered_below text chunks1 e).
  { intros i c Hi Hc Hw. destruct (decide (Z.of_nat i < start)) as [Hlt|Hge].
    - destruct (Hcov i c Hlt Hc Hw) as (f & Hf & Hcv). exists f. split; [| exact Hcv].
      subst chunks1. destruct (truthy chunk); [apply elem_of_app; by left | exact Hf].
    - destruct (window_covers start e i c) as [Hne Hcv]; try lia; try assumption.
      exists chunk. split; [| exact Hcv].
      subst chunks1. fold chunk in Hne. destruct chunk; [congruence |]. simpl.
      apply elem_of_app. right. apply list_elem_of_singleton. reflexivity. }
  destruct (Z.ltb_spec (e - overlap) 0) as [Hneg|Hpos].
  - destruct (_ || _) eqn:Hcond.
    + apply orb_true_iff in Hcond as [Hc|Hc]; [lia |].
      apply Z.eqb_eq in Hc. rewrite <- Hc. exact Hcov1.
    + split; [lia |]. eapply covered_below_weaken; [| | exact Hcov1]; [lia | auto].
  - destruct (_ || _) eqn:Hcond.
    + assert (e = len text) as <-; [| exact Hcov1].
      apply orb_true_iff in Hcond as [Hc|Hc]; lia.
    + split; [lia |]. eapply covered_below_weaken; [| | exact Hcov1]; [lia | auto].
Qed.

Lemma chunk_loop_covers fuel :
  forall start chunks r,
    0 <= start ->
    covered_below text chunks start ->
    chunk_loop fuel text chunk_size overlap start chunks = Some r ->
    covered_below text r (len text).
Proof.
  induction fuel as [|fuel IH]; intros start chunks r Hs Hcov; simpl.
  - destruct (Z.ltb_spec start (len text)); [discriminate |].
    intros [= <-]. eapply covered_below_weaken; [| | exact Hcov]; [lia | auto].
  - destruct (Z.ltb_spec start (len text)).
    + pose proof (chunk_step_covers start chunks ltac:(lia) Hcov) as Hstep.
      destruct (chunk_step _ _ _ _ _) as [[start' chunks']|r'].
      * destruct Hstep. eauto.
      * intros [= <-]. exact Hstep.
    + intros [= <-]. eapply covered_below_weaken; [| | exact Hcov]; [lia | auto].
Qed.

End ChunkerFacts.

(** C8: for a positive size and [0 <= overlap < size] the loop of
    [simple_chunk_text] terminates: a fuel of [len(text)] passes is enough
    for a returned list, whatever the distance between overlap and size.
    A pass that goes on moves [start] strictly forward, and a pass whose
    window reaches the end of the text leaves the loop. *)
Theorem simple_chunk_text_terminates (text : str) (chunk_size overlap : Z) :
  (0 < chunk_size)%Z -> (0 <= overlap < chunk_size)%Z ->
  (forall fuel, length text <= fuel ->
     exists chunks,
       simple_chunk_text fuel text chunk_size overlap = Some (Ok chunks)) /\
  (forall start chunks start' chunks',
     chunk_step text chunk_size overlap start chunks
       = Continue (start', chunks') ->
     (start < start')%Z) /\
  (forall start chunks,
     Z.min (start + chunk_size) (len text) = len text ->
     exists r, chunk_step text chunk_size overlap start chunks = Break r).
Proof.
  intros Hsize [Hov0 Hov]. split; [| split].
  - intros fuel Hfuel. unfold simple_chunk_text.
    destruct (Z.leb_spec chunk_size 0); [lia |].
    destruct (Z.geb_spec overlap chunk_size); [lia |].
    destruct (chunk_loop_total text chunk_size overlap Hov fuel 0 [])
      as [r ->]; [unfold len; lia | eauto].
  - intros start chunks start' chunks' Hstep.
    by apply (chunk_step_continue text chunk_size overlap Hov) in Hstep
      as [? _].
  - intros start chunks. apply chunk_step_at_end.
Qed.

Lemma simple_chunk_text_terminates_witness :
  (forall fuel, length (py "AAAA BBBB CCCC") <= fuel ->
     exists chunks,
       simple_chunk_text fuel (py "AAAA BBBB CCCC") 5 4 = Some (Ok chunks)) /\
  (forall start chunks start' chunks',
     chunk_step (py "AAAA BBBB CCCC") 5 4 start chunks
       = Continue (start', chunks') ->
     (start < start')%Z) /\
  (forall start chunks,
     Z.min (start + 5) (len (py "AAAA BBBB CCCC")) = len (py "AAAA BBBB CCCC") ->
     exists r, chunk_step (py "AAAA BBBB CCCC") 5 4 start chunks = Break r).
Proof.
  apply (simple_chunk_text_terminates (py "AAAA BBBB CCCC") 5 4); lia.
Defined.

(** C1, as amended: for a positive size and [0 <= overlap < size],
    [simple_chunk_text] returns, and every character of the text that is
    not white space is covered by an emitted fragment: the fragment is a
    slice of the text that contains the character's position.  (White
    space at the edge of a window is trimmed away and covered by no
    fragment.) *)
Theorem simple_chunk_text_covers_nonspace
    (text : str) (chunk_size overlap : Z) (fuel : nat) :
  (0 < chunk_size)%Z -> (0 <= overlap < chunk_size)%Z ->
  length text <= fuel ->
  exists chunks,
    simple_chunk_text fuel text chunk_size overlap = Some (Ok chunks) /\
    forall (i : nat) (c : N),
      text !! i = Some c -> isspace c = false ->
      exists frag, frag ∈ chunks /\ covers text frag i.
Proof.
  intros Hsize [Hov0 Hov] Hfuel. unfold simple_chunk_text.
  destruct (Z.leb_spec chunk_size 0); [lia |].
  destruct (Z.geb_spec overlap chunk_size); [lia |].
  destruct (chunk_loop_total text chunk_size overlap Hov fuel 0 [])
    as [r Hr]; [unfold len; lia |].
  rewrite Hr. exists r. split; [reflexivity |].
  intros i c Hc Hw.
  apply (chunk_loop_covers text chunk_size overlap Hov Hsize Hov0 fuel 0 [] r)
    with (c := c); try assumption; try lia.
  - intros j d Hj. lia.
  - apply lookup_lt_Some in Hc. unfold len. lia.
Qed.

Lemma simple_chunk_text_covers_nonspace_witness :
  exists chunks,
    simple_chunk_text 14 (py "AAAA BBBB CCCC") 5 1 = Some (Ok chunks) /\
    forall (i : nat) (c : N),
      py "AAAA BBBB CCCC" !! i = Some c -> isspace c = false ->
      exists frag, frag ∈ chunks /\ covers (py "AAAA BBBB CCCC") frag i.
Proof.
  apply (simple_chunk_text_covers_nonspace (py "AAAA BBBB CCCC") 5 1 14);
    [lia | lia | vm_compute; lia].
Defined.

(** C1 as stated fails: chunking "a b" with size 2 and overlap 0 emits
    "a" and "b", and neither covers the blank at position 1. *)
Lemma blank_between_windows_not_covered :
  simple_chunk_text 3 (py "a b") 2 0 = Some (Ok [py "a"; py "b"]) /\
  1 < length (py "a b") /\
  ~ (exists frag, frag ∈ [py "a"; py "b"] /\ covers (py "a b") frag 1).
Proof.
  split; [vm_compute; reflexivity |]. split; [vm_compute; lia |].
  intros (frag & Hin & p & Hp & Heq).
  apply elem_of_cons in Hin as [-> | Hin].
  - change (length (py "a")) with 1 in *. assert (p = 1) as -> by lia.
    vm_compute in Heq. discriminate.
  - apply list_elem_of_singleton in Hin as ->.
    change (length (py "b")) with 1 in *. assert (p = 1) as -> by lia.
    vm_compute in Heq. discriminate.
Qed.

Lemma truthy_false_iff {A} (l : list A) : truthy l = false <-> l = [].
Proof. destruct l; simpl; split; congruence. Qed.

(** A text no longer than one window is trimmed and emitted whole. *)
Lemma chunk_loop_one_window (text : str) (chunk_size overlap : Z) (fuel : nat) :
  (len text <= chunk_size)%Z -> length text <= fuel ->
  chunk_loop fuel text chunk_size overlap 0 []
  = Some (if truthy (strip text) then [strip text] else []).
Proof.
  intros Hshort Hfuel. destruct text as [|c text].
  - destruct fuel; reflexivity.
  - destruct fuel as [|fuel]; [simpl in Hfuel; lia |].
    remember (c :: text) as t eqn:Ht. simpl.
    assert (Hlt : (0 <? len t)%Z = true)
      by (apply Z.ltb_lt; subst t; unfold len; simpl; lia).
    rewrite Hlt. unfold chunk_step.
    rewrite Z.min_r by lia. rewrite slice_whole by lia.
    rewrite Z.eqb_refl, orb_true_r. reflexivity.
Qed.

(** C4, as amended: for a positive size and [0 <= overlap < size], an
    empty text yields the empty list without error, and a text shorter than
    [size] yields exactly one fragment, its trimmed text, when it holds a
    character that is not white space, and no fragment when it is empty or
    all white space. *)
Theorem simple_chunk_text_short
    (text : str) (chunk_size overlap : Z) (fuel : nat) :
  (0 < chunk_size)%Z -> (0 <= overlap < chunk_size)%Z ->
  length text <= fuel ->
  (text = [] ->
   simple_chunk_text fuel text chunk_size overlap = Some (Ok [])) /\
  ((len text < chunk_size)%Z ->
   (Forall (fun c => isspace c = true) text ->
    simple_chunk_text fuel text chunk_size overlap = Some (Ok [])) /\
   (~ Forall (fun c => isspace c = true) text ->
    simple_chunk_text fuel text chunk_size overlap = Some (Ok [strip text]))).
Proof.
  intros Hsize [Hov0 Hov] Hfuel.
  assert (Hone : (len text <= chunk_size)%Z ->
                 simple_chunk_text fuel text chunk_size overlap
                 = Some (Ok (if truthy (strip text) then [strip text] else []))).
  { intros Hshort. unfold simple_chunk_text.
    destruct (Z.leb_spec chunk_size 0); [lia |].
    destruct (Z.geb_spec overlap chunk_size); [lia |].
    rewrite chunk_loop_one_window by assumption. reflexivity. }
  split.
  - intros ->. apply Hone. unfold len. simpl. lia.
  - intros Hshort. rewrite Hone by lia. split.
    + intros Hall. apply strip_nil_iff in Hall. rewrite Hall. reflexivity.
    + intros Hnot. destruct (truthy (strip text)) eqn:Ht; [reflexivity |].
      apply truthy_false_iff, strip_nil_iff in Ht. contradiction.
Qed.

Lemma simple_chunk_text_short_witness :
  (py "  ab " = [] ->
   simple_chunk_text 5 (py "  ab ") 8 3 = Some (Ok [])) /\
  ((len (py "  ab ") < 8)%Z ->
   (Forall (fun c => isspace c = true) (py "  ab ") ->
    simple_chunk_text 5 (py "  ab ") 8 3 = Some (Ok [])) /\
   (~ Forall (fun c => isspace c = true) (py "  ab ") ->
    simple_chunk_text 5 (py "  ab ") 8 3 = Some (Ok [strip (py "  ab ")]))).
Proof.
  apply (simple_chunk_text_short (py "  ab ") 8 3 5); [lia | lia | vm_compute; lia].
Defined.

(** C4 as stated fails: the text " " is shorter than the size 2, and
    chunking it yields no fragment at all. *)
Lemma short_blank_text_yields_no_fragment :
  (len (py " ") < 2)%Z /\
  simple_chunk_text 1 (py " ") 2 0 = Some (Ok []) /\
  ~ (exists frag, simple_chunk_text 1 (py " ") 2 0 = Some (Ok [frag])).
Proof.
  split; [vm_compute; reflexivity |]. split; [vm_compute; reflexivity |].
  intros [frag H]. vm_compute in H. discriminate.
Qed.

(** C5, as amended: [simple_chunk_text] raises exactly when
    [chunk_size <= 0] or [overlap >= chunk_size], the exception is a
    [ValueError], and with enough fuel it returns a list exactly when
    [chunk_size > 0] and [overlap < chunk_size] (so in particular whenever
    [0 <= overlap < chunk_size]). *)
Theorem simple_chunk_text_raises_iff
    (text : str) (chunk_size overlap : Z) (fuel : nat) :
  ((exists e, simple_chunk_text fuel text chunk_size overlap = Some (Raise e))
   <-> (chunk_size <= 0 \/ chunk_size <= overlap)%Z) /\
  (forall e, simple_chunk_text fuel text chunk_size overlap = Some (Raise e) ->
             exists msg, e = ValueError msg) /\
  (length text <= fuel ->
   ((exists chunks,
       simple_chunk_text fuel text chunk_size overlap = Some (Ok chunks))
    <-> (0 < chunk_size /\ overlap < chunk_size)%Z)).
Proof.
  unfold simple_chunk_text.
  destruct (Z.leb_spec chunk_size 0) as [Hs|Hs].
  { split; [| split].
    - split; [intros _; lia | eauto].
    - intros e [= <-]. eauto.
    - intros _. split; [intros [c [=]] | lia]. }
  destruct (Z.geb_spec overlap chunk_size) as [Ho|Ho].
  { split; [| split].
    - split; [intros _; lia | eauto].
    - intros e [= <-]. eauto.
    - intros _. split; [intros [c [=]] | lia]. }
  split; [| split].
  - split; [| lia]. intros [e He].
    destruct (chunk_loop _ _ _ _ _ _); discriminate.
  - intros e He. destruct (chunk_loop _ _ _ _ _ _); discriminate.
  - intros Hfuel. split; [lia | intros _].
    destruct (chunk_loop_total text chunk_size overlap Ho fuel 0 [])
      as [r ->]; [unfold len; lia | eauto].
Qed.

Lemma simple_chunk_text_raises_iff_witness :
  exists chunks, simple_chunk_text 3 (py "abc") 2 (-4) = Some (Ok chunks).
Proof.
  apply (proj2 (proj2 (simple_chunk_text_raises_iff (py "abc") 2 (-4) 3)));
    [vm_compute; lia | lia].
Defined.

(** C5 as stated fails: with [chunk_size = 0] and [overlap = -1] the
    constraint [overlap < chunk_size] holds and the call raises all the
    same. *)
Lemma overlap_below_size_still_raises :
  (-1 < 0)%Z /\
  simple_chunk_text 3 (py "abc") 0 (-1)
  = Some (Raise (ValueError (py "chunk_size must be > 0"))).
Proof. split; [lia | vm_compute; reflexivity]. Qed.

(** ** The embedding adapter *)

Import Embedder.

Lemma slice_nat {A} (s : list A) (a b : nat) :
  a <= b -> slice s (Z.of_nat a) (Z.of_nat b) = take (b - a) (drop a s).
Proof.
  intros Hab. unfold slice, clamp_index, len.
  destruct (Z.ltb_spec (Z.of_nat a) 0); [lia |].
  destruct (Z.ltb_spec (Z.of_nat b) 0); [lia |].
  destruct (decide (b <= length s)) as [Hb|Hb].
  - rewrite !Z.min_l by lia. f_equal; [lia | f_equal; lia].
  - destruct (decide (a <= length s)) as [Ha|Ha].
    + rewrite Z.min_r, Z.min_l by lia. rewrite Nat2Z.id.
      rewrite !take_ge; [reflexivity | rewrite length_drop; lia ..].
    + rewrite !Z.min_r by lia. rewrite Z.sub_diag. simpl.
      rewrite (drop_ge s a) by lia. by rewrite take_nil.
Qed.




Section EmbedderFacts.

Context {float : Type}.
Variable create : str -> list str -> result (list (list float)).
Variable model : str.

(** What is known of an answer of the provider to a batch. *)
Variable answers : list str -> list (list float) -> Prop.
Hypothesis Hcreate :
  forall batch, length batch <= 10 ->
    exists vs, create model batch = Ok vs /\ answers batch vs.




End EmbedderFacts.

(** The batches of a run. *)

Section EmbedderRuns.

Context {float : Type}.
Variable create : str -> list str -> result (list (list float)).
Variable model : str.

Lemma for_in_cons_eq {A S} (x : A) (xs : list A) (body : A -> S -> io S)
    (s : S) (log : list (list str)) :
  for_in (x :: xs) body s log
  = match body x s log with
    | (log', Ok s') => for_in xs body s' log'
    | (log', Raise e) => (log', Raise e)
    end.
Proof. reflexivity. Qed.

(** The loop over the starts is a loop over the batches. *)
Lemma for_in_slices (texts : list str) (starts : list Z) :
  forall acc log,
    for_in starts
      (fun i embeddings =>
         io_bind (embeddings_create create model
                    (slice texts i (i + DEFAULT_TOP_RERANK)))
                 (fun res => io_ret (embeddings ++ res)))
      acc log
    = for_in (map (fun i => slice texts i (i + DEFAULT_TOP_RERANK)) starts)
        (fun batch embeddings =>
           io_bind (embeddings_create create model batch)
                   (fun res => io_ret (embeddings ++ res)))
        acc log.
Proof.
  induction starts as [|i starts IH]; intros acc log; [reflexivity |].
  simpl map. rewrite !for_in_cons_eq. cbv beta.
  destruct (io_bind _ _ log) as [log' [vs|e]]; [apply IH | reflexivity].
Qed.

Lemma for_in_batch_cons (b : list str) (bs : list (list str)) acc log :
  for_in (b :: bs)
    (fun batch embeddings =>
       io_bind (embeddings_create create model batch)
               (fun res => io_ret (embeddings ++ res)))
    acc log
  = match create model b with
    | Ok vs =>
        for_in bs
          (fun batch embeddings =>
             io_bind (embeddings_create create model batch)
                     (fun res => io_ret (embeddings ++ res)))
          (acc ++ vs) (log ++ [b])
    | Raise e => (log ++ [b], Raise e)
    end.
Proof.
  rewrite for_in_cons_eq. cbv beta. unfold io_bind, embeddings_create, io_ret.
  destruct (create model b); reflexivity.
Qed.

(** A run that returns has sent every batch and got an answer to each. *)
Lemma for_in_batches_ok (bs : list (list str)) :
  forall acc log log' r,
    for_in bs
      (fun batch embeddings =>
         io_bind (embeddings_create create model batch)
                 (fun res => io_ret (embeddings ++ res)))
      acc log = (log', Ok r) ->
    log' = log ++ bs /\
    exists responses,
      Forall2 (fun b vs => create model b = Ok vs) bs responses /\
      r = acc ++ concat responses.
Proof.
  induction bs as [|b bs IH]; intros acc log log' r.
  - simpl. unfold io_ret. intros [= <- <-]. rewrite app_nil_r.
    split; [reflexivity |]. exists []. split; [constructor |].
    simpl. by rewrite app_nil_r.
  - rewrite for_in_batch_cons. destruct (create model b) as [vs|e] eqn:Hb;
      [| discriminate].
    intros Hrun. apply IH in Hrun as (-> & responses & Hall & ->).
    split; [by rewrite <- app_assoc |].
    exists (vs :: responses). split; [by constructor |].
    simpl. by rewrite app_assoc.
Qed.

(** A run stops at the first batch the provider fails on. *)
Lemma for_in_batches_fail (pre : list (list str)) (b : list str)
    (post : list (list str)) (e : exn) :
  Forall (fun b' => exists vs, create model b' = Ok vs) pre ->
  create model b = Raise e ->
  forall acc log,
    for_in (pre ++ b :: post)
      (fun batch embeddings =>
         io_bind (embeddings_create create model batch)
                 (fun res => io_ret (embeddings ++ res)))
      acc log = (log ++ pre ++ [b], Raise e).
Proof.
  intros Hpre Hb. induction Hpre as [|b' pre [vs Hvs] _ IH]; intros acc log.
  - simpl app. rewrite for_in_batch_cons, Hb. reflexivity.
  - change ((b' :: pre) ++ b :: post) with (b' :: (pre ++ b :: post)).
    rewrite for_in_batch_cons, Hvs, IH. by rewrite <- app_assoc.
Qed.

(** When every batch is answered, the run sends them all and returns the
    answers concatenated. *)
Lemma for_in_batches_answered (answer : list str -> list (list float))
    (bs : list (list str)) :
  Forall (fun b => create model b = Ok (answer b)) bs ->
  forall acc log,
    for_in bs
      (fun batch embeddings =>
         io_bind (embeddings_create create model batch)
                 (fun res => io_ret (embeddings ++ res)))
      acc log
    = (log ++ bs, Ok (acc ++ concat (map answer bs))).
Proof.
  induction 1 as [|b bs Hb _ IH]; intros acc log.
  - simpl. unfold io_ret. by rewrite !app_nil_r.
  - rewrite for_in_batch_cons, Hb, IH. simpl.
    by rewrite <- !app_assoc.
Qed.

Lemma embed_text_many_as_plan (texts : list str) (log : list (list str)) :
  embed_text create (ManyTexts texts) model log
  = match for_in (planned_batches texts)
            (fun batch embeddings =>
               io_bind (embeddings_create create model batch)
                       (fun res => io_ret (embeddings ++ res)))
            [] log with
    | (log', Ok vs) => (log', Ok (ManyVectors vs))
    | (log', Raise e) => (log', Raise e)
    end.
Proof.
  unfold embed_text, planned_batches.
  destruct (len texts >? DEFAULT_TOP_RERANK)%Z.
  - unfold io_bind at 1. rewrite for_in_slices.
    destruct (for_in _ _ _ _) as [log' [vs|e]]; reflexivity.
  - rewrite for_in_batch_cons. unfold io_bind, embeddings_create, io_ret.
    destruct (create model texts); reflexivity.
Qed.

End EmbedderRuns.

Lemma planned_batches_lookup (texts : list str) (k : nat) (b : list str) :
  planned_batches texts !! k = Some b ->
  b = take 10 (drop (10 * k) texts).
Proof.
  unfold planned_batches.
  destruct (Z.gtb_spec (len texts) DEFAULT_TOP_RERANK) as [Hbig|Hsmall].
  - unfold range. rewrite !list_lookup_fmap.
    destruct (seq _ _ !! k) as [j|] eqn:Hj; [| discriminate].
    apply lookup_seq in Hj as [-> _]. simpl. intros [= <-].
    unfold DEFAULT_TOP_RERANK.
    replace (0 + Z.of_nat k * 10)%Z with (Z.of_nat (10 * k)) by lia.
    replace (Z.of_nat (10 * k) + 10)%Z with (Z.of_nat (10 * k + 10)) by lia.
    rewrite slice_nat by lia. f_equal. lia.
  - destruct k as [|k]; [| discriminate]. intros [= <-].
    rewrite Nat.mul_0_r, drop_0. symmetry. apply take_ge.
    unfold DEFAULT_TOP_RERANK, len in Hsmall. lia.
Qed.

Lemma planned_batches_length (texts : list str) :
  Z.of_nat (length (planned_batches texts))
  = Z.max 1 ((len texts + 9) / 10).
Proof.
  unfold planned_batches, DEFAULT_TOP_RERANK.
  destruct (Z.gtb_spec (len texts) 10) as [Hbig|Hsmall].
  - unfold range. rewrite !length_map, length_seq.
    replace (len texts - 0 + 10 - 1)%Z with (len texts + 9)%Z by lia.
    assert (2 <= (len texts + 9) / 10)%Z
      by (apply Z.div_le_lower_bound; lia).
    lia.
  - simpl. assert ((len texts + 9) / 10 < 2)%Z.
    { apply Z.div_lt_upper_bound; unfold len in *; lia. }
    lia.
Qed.

(** [embed_documents] is [embed_text] on a list with the module's model. *)
Lemma embed_documents_as_embed_text {float : Type}
    (create : str -> list str -> result (list (list float)))
    (texts : list str) (log : list (list str)) :
  embed_text create (ManyTexts texts) EMBED_MODEL log
  = (let '(log', r) := embed_documents create texts log in
     (log', match r with
            | Ok vs => Ok (ManyVectors vs)
            | Raise e => Raise e
            end)).
Proof.
  unfold embed_text, embed_documents, io_bind at 1.
  destruct (if (len texts >? DEFAULT_TOP_RERANK)%Z then _ else _) as [log' [vs|e]];
    reflexivity.
Qed.






(** The scenario of the specification, with the batch limit of the code:
    twelve texts go out as a batch of ten and a batch of two, and the
    twelve vectors come back in input order. *)
Example embed_documents_two_batches :
  embed_documents (fun _ batch => Ok (map (fun t : str => [length t]) batch))
    (replicate 11 (py "a") ++ [py "bc"]) []
  = ([replicate 10 (py "a"); [py "a"; py "bc"]],
     Ok (replicate 11 [1] ++ [[2]])).
Proof. vm_compute. reflexivity. Qed.

(** C7, as amended: [embed_text] and [embed_documents] compare no counts:
    when the provider answers every batch of the plan, they send those
    batches and return the answers concatenated in that order, whatever
    their number.  The count is compared by the caller, [main] of
    embedder.py, on a non-empty list of texts: it raises [RuntimeError]
    when the number of vectors differs from the number of texts, goes on
    with the vectors only when the two numbers agree, and lets an
    exception of [embed_text] through.  On an empty list [main] raises
    [ZeroDivisionError] before any request. *)
Theorem main_vectorize_checks_count {float : Type}
    (create : str -> list str -> result (list (list float)))
    (texts : list str) (log : list (list str)) :
  (forall (model : str) (answer : list str -> list (list float)),
     Forall (fun b => create model b = Ok (answer b))
            (planned_batches texts) ->
     embed_text create (ManyTexts texts) model log
     = (log ++ planned_batches texts,
        Ok (ManyVectors (concat (map answer (planned_batches texts))))) /\
     (model = EMBED_MODEL ->
      embed_documents create texts log
      = (log ++ planned_batches texts,
         Ok (concat (map answer (planned_batches texts)))))) /\
  (texts = [] ->
   main_vectorize create texts log
   = (log, Raise (ZeroDivisionError (py "division by zero")))) /\
  (texts <> [] ->
   forall log' v,
     embed_text create (ManyTexts texts) EMBED_MODEL log = (log', Ok v) ->
     main_vectorize create texts log
     = (log', if (value_len v =? len texts)%Z then Ok v
              else Raise (RuntimeError (py "embeddings 数量与文本数量不一致")))) /\
  (texts <> [] ->
   forall log' e,
     embed_text create (ManyTexts texts) EMBED_MODEL log = (log', Raise e) ->
     main_vectorize create texts log = (log', Raise e)) /\
  (forall log' v,
     main_vectorize create texts log = (log', Ok v) ->
     texts <> [] /\ value_len v = len texts /\
     embed_text create (ManyTexts texts) EMBED_MODEL log = (log', Ok v)).
Proof.
  assert (Havg : texts <> [] ->
                 average_length texts log = (log, Ok tt)).
  { intros Hne. unfold average_length.
    destruct (Z.eqb_spec (len texts) 0) as [H0|_]; [| reflexivity].
    destruct texts; [congruence | discriminate H0]. }
  split; [| split; [| split; [| split]]].
  - intros model answer Hall.
    assert (Hrun : embed_text create (ManyTexts texts) model log
                   = (log ++ planned_batches texts,
                      Ok (ManyVectors
                            (concat (map answer (planned_batches texts)))))).
    { rewrite embed_text_many_as_plan.
      by rewrite (for_in_batches_answered create model answer _ Hall). }
    split; [exact Hrun |]. intros ->.
    rewrite embed_documents_as_embed_text in Hrun.
    destruct (embed_documents create texts log) as [log' [vs|e]]; congruence.
  - intros ->. reflexivity.
  - intros Hne log' v Hrun. unfold main_vectorize.
    unfold io_bind at 1. rewrite (Havg Hne).
    unfold io_bind. rewrite Hrun.
    destruct (value_len v =? len texts)%Z; reflexivity.
  - intros Hne log' e Hrun. unfold main_vectorize.
    unfold io_bind at 1. rewrite (Havg Hne).
    unfold io_bind. rewrite Hrun. reflexivity.
  - intros log' v. destruct texts as [|t texts']; [discriminate |].
    unfold main_vectorize. unfold io_bind at 1.
    rewrite (Havg ltac:(discriminate)). unfold io_bind.
    destruct (embed_text create (ManyTexts (t :: texts')) EMBED_MODEL log)
      as [log1 [v1|e1]]; [| discriminate].
    destruct (Z.eqb_spec (value_len v1) (len (t :: texts'))); simpl.
    + unfold io_ret. intros [= <- <-]. by repeat split.
    + unfold io_raise. discriminate.
Qed.

Lemma main_vectorize_checks_count_witness :
  main_vectorize (float := nat) (fun _ _ => Ok []) [py "a"] []
  = ([[py "a"]], Raise (RuntimeError (py "embeddings 数量与文本数量不一致"))).
Proof.
  apply (proj1 (proj2 (proj2 (main_vectorize_checks_count (float := nat)
                                (fun _ _ => Ok []) [py "a"] [])))
           ltac:(discriminate) [[py "a"]] (ManyVectors [])).
  vm_compute. reflexivity.
Defined.

(** What [main] does on an empty and on a one-text list when the provider
    answers text by text. *)
Example main_vectorize_runs :
  main_vectorize (fun _ batch => Ok (map (fun t : str => [length t]) batch))
    [] []
  = ([], Raise (ZeroDivisionError (py "division by zero"))) /\
  main_vectorize (fun _ batch => Ok (map (fun t : str => [length t]) batch))
    [py "ab"] []
  = ([[py "ab"]], Ok (ManyVectors [[2]])).
Proof. split; vm_compute; reflexivity. Qed.

(** C7 as stated fails: a provider that answers one text with no vector
    makes [embed_text] and [embed_documents] return the empty list, not an
    error. *)
Lemma embed_returns_wrong_count :
  embed_text (float := nat) (fun _ _ => Ok []) (ManyTexts [py "a"]) EMBED_MODEL []
  = ([[py "a"]], Ok (ManyVectors [])) /\
  embed_documents (float := nat) (fun _ _ => Ok []) [py "a"] []
  = ([[py "a"]], Ok []) /\
  length ([] : list (list nat)) <> length [py "a"].
Proof.
  split; [vm_compute; reflexivity |]. split; [vm_compute; reflexivity |].
  simpl. lia.
Qed.

(** ** The prompt assemblers *)

Import Prompt.

Lemma occurs_in_app_r (pat a s : str) :
  occurs_in pat s -> occurs_in pat (a ++ s).
Proof.
  intros (pre & post & ->). exists (a ++ pre), post. by rewrite <- app_assoc.
Qed.

Lemma occurs_in_app_l (pat s b : str) :
  occurs_in pat s -> occurs_in pat (s ++ b).
Proof.
  intros (pre & post & ->). exists pre, (post ++ b). by rewrite <- !app_assoc.
Qed.

Lemma occurs_in_here (pat post : str) : occurs_in pat (pat ++ post).
Proof. by exists [], post. Qed.

Lemma starts_with_app (pat post : str) : starts_with pat (pat ++ post) = true.
Proof.
  induction pat as [|a pat IH]; simpl; [by destruct post |].
  by rewrite N.eqb_refl, IH.
Qed.

Lemma starts_with_sound (pat s : str) :
  starts_with pat s = true -> exists post, s = pat ++ post.
Proof.
  revert s. induction pat as [|a pat IH]; intros s H; [by exists s |].
  destruct s as [|b s]; [discriminate |]. simpl in H.
  apply andb_true_iff in H as [Hab Hrest]. apply N.eqb_eq in Hab as ->.
  destruct (IH s Hrest) as [post ->]. by exists post.
Qed.

Lemma occurs_inb_unfold (pat s : str) :
  occurs_inb pat s
  = starts_with pat s
    || match s with [] => false | _ :: s' => occurs_inb pat s' end.
Proof. by destruct s. Qed.

Lemma occurs_afterb_unfold (block pat s : str) :
  occurs_afterb block pat s
  = (starts_with block s && occurs_inb pat (drop (length block) s))
    || match s with [] => false | _ :: s' => occurs_afterb block pat s' end.
Proof. by destruct s. Qed.

Lemma occurs_inb_complete (pat s : str) :
  occurs_in pat s -> occurs_inb pat s = true.
Proof.
  intros (pre & post & ->). induction pre as [|c pre IH].
  - rewrite occurs_inb_unfold. simpl. by rewrite starts_with_app.
  - simpl. rewrite IH. apply orb_true_r.
Qed.

Lemma occurs_inb_sound (pat s : str) :
  occurs_inb pat s = true -> occurs_in pat s.
Proof.
  induction s as [|c s IH]; simpl; intros H.
  - rewrite orb_false_r in H. apply starts_with_sound in H as [post ->].
    apply occurs_in_here.
  - apply orb_true_iff in H as [H|H].
    + apply starts_with_sound in H as [post ->]. apply occurs_in_here.
    + apply (occurs_in_app_r pat [c]). auto.
Qed.

Lemma occurs_afterb_complete (block pat s : str) :
  occurs_after block pat s -> occurs_afterb block pat s = true.
Proof.
  intros (pre & post & -> & Hpat). induction pre as [|c pre IH].
  - rewrite occurs_afterb_unfold. simpl.
    by rewrite starts_with_app, drop_app_length, (occurs_inb_complete _ _ Hpat).
  - simpl. rewrite IH. apply orb_true_r.
Qed.

Lemma enumerate_lookup {A} (xs : list A) (n k : nat) :
  enumerate n xs !! k = (fun x => (n + k, x)) <$> xs !! k.
Proof.
  revert n k. induction xs as [|x xs IH]; intros n [|k]; simpl; try reflexivity.
  - by rewrite Nat.add_0_r.
  - rewrite IH. destruct (xs !! k); simpl; [f_equal; f_equal; lia | reflexivity].
Qed.

Lemma enumerate_length {A} (xs : list A) (n : nat) :
  length (enumerate n xs) = length xs.
Proof. revert n. induction xs; intros n; simpl; auto. Qed.

(** The labelled blocks of a prompt, position by position. *)
Lemma parts_lookup (text_of : doc -> str) (docs : list doc) (k : nat) (d : doc) :
  docs !! k = Some d ->
  map (fun '(i, d) => part i (doc_source d) (text_of d)) (enumerate 1 docs) !! k
  = Some (part (S k) (doc_source d) (text_of d)).
Proof.
  intros Hd. rewrite list_lookup_fmap, enumerate_lookup, Hd. reflexivity.
Qed.

Lemma make_prompt_unfold (query : str) (docs : list doc) :
  make_prompt query docs
  = py "下面是检索到的知识片段（仅供参考）。请**仅基于这些片段**回答用户问题，"
    ++ py "如果片段中没有相关信息，请回答“我不知道”。" ++ LF ++ LF
    ++ join LF (map (fun '(i, d) => part i (doc_source d) (doc_text d))
                    (enumerate 1 docs))
    ++ LF ++ py "用户问题：" ++ query ++ LF ++ LF
    ++ py "请给出简洁准确的回答，并在末尾列出引用来源。".
Proof. reflexivity. Qed.

Lemma build_prompt_nil (query : str) :
  build_prompt query []
  = py "用户问题：" ++ query ++ LF ++ LF
    ++ py "注意：未检索到相关文档，请回答" ++ DQUOTE ++ py "我不知道" ++ DQUOTE
    ++ py "。".
Proof. reflexivity. Qed.

Lemma build_prompt_cons (query : str) (d : doc) (docs : list doc) :
  build_prompt query (d :: docs)
  = py "下面是检索到的知识片段（可能有冗余），请 **只基于这些片段** 回答问题。" ++ LF
    ++ py "如果片段中没有相关信息，请回答" ++ DQUOTE ++ py "我不知道" ++ DQUOTE
    ++ py "。" ++ LF ++ LF
    ++ py "已检索到的片段：" ++ LF
    ++ join LF (map (fun '(i, d) => part i (doc_source d) (doc_page_text d))
                    (enumerate 1 (d :: docs)))
    ++ LF ++ LF
    ++ py "用户问题：" ++ query ++ LF ++ LF
    ++ py "请给出简洁准确的回答，并在最后列出引用来源（文件名和片段编号）。".
Proof. reflexivity. Qed.

Ltac occurs_by_computation :=
  apply occurs_inb_sound; vm_compute; reflexivity.

(** C3, as amended: on an empty result list [build_prompt] returns the
    query followed by the notice that no document was retrieved and the
    request to answer with the marker for unknown.  [make_prompt] has no
    branch for the empty list: it returns its usual template around an
    empty fragment section, which still asks for the marker when the
    fragments hold no answer. *)
Theorem empty_results_prompt (query : str) :
  build_prompt query []
  = py "用户问题：" ++ query ++ LF ++ LF
    ++ py "注意：未检索到相关文档，请回答" ++ DQUOTE ++ py "我不知道" ++ DQUOTE
    ++ py "。" /\
  occurs_in NOTHING_FOUND (build_prompt query []) /\
  occurs_in UNKNOWN_MARKER (build_prompt query []) /\
  occurs_in query (build_prompt query []) /\
  make_prompt query []
  = py "下面是检索到的知识片段（仅供参考）。请**仅基于这些片段**回答用户问题，"
    ++ py "如果片段中没有相关信息，请回答“我不知道”。" ++ LF ++ LF
    ++ LF ++ py "用户问题：" ++ query ++ LF ++ LF
    ++ py "请给出简洁准确的回答，并在末尾列出引用来源。" /\
  occurs_in UNKNOWN_MARKER (make_prompt query []).
Proof.
  rewrite build_prompt_nil, make_prompt_unfold.
  change (join LF (map _ (enumerate 1 []))) with (@nil N).
  rewrite app_nil_l. repeat split.
  - do 2 apply occurs_in_app_r. occurs_by_computation.
  - do 2 apply occurs_in_app_r. occurs_by_computation.
  - apply occurs_in_app_r, occurs_in_here.
  - apply occurs_in_app_r, occurs_in_app_l. occurs_by_computation.
Qed.

(** C3 as stated fails for [make_prompt]: on an empty result list its
    prompt carries no notice that nothing was retrieved. *)
Lemma make_prompt_empty_has_no_notice :
  ~ occurs_in NOTHING_FOUND (make_prompt (py "如何更换电池?") []).
Proof.
  intros H. apply occurs_inb_complete in H. vm_compute in H. discriminate.
Qed.

(** The fixed wording of the two templates, by its parts. *)
Lemma make_prompt_head :
  py "下面是检索到的知识片段（仅供参考）。请**仅基于这些片段**回答用户问题，"
  ++ py "如果片段中没有相关信息，请回答“我不知道”。" ++ LF ++ LF
  = py "下面是检索到的知识片段（仅供参考）。" ++ ONLY_THESE_MAKE
    ++ py "，如果片段中没有相关信息，请回答“" ++ UNKNOWN_MARKER ++ py "”。"
    ++ LF ++ LF.
Proof. vm_compute. reflexivity. Qed.

Lemma make_prompt_tail :
  LF ++ LF ++ py "请给出简洁准确的回答，并在末尾列出引用来源。"
  = LF ++ LF ++ py "请给出简洁准确的回答，并在末尾" ++ CITE_SOURCES ++ py "。".
Proof. vm_compute. reflexivity. Qed.

Lemma build_prompt_head :
  py "下面是检索到的知识片段（可能有冗余），请 **只基于这些片段** 回答问题。" ++ LF
  ++ py "如果片段中没有相关信息，请回答" ++ DQUOTE ++ py "我不知道" ++ DQUOTE
  ++ py "。" ++ LF ++ LF ++ py "已检索到的片段：" ++ LF
  = py "下面是检索到的知识片段（可能有冗余），" ++ ONLY_THESE_BUILD ++ py "。"
    ++ LF ++ py "如果片段中没有相关信息，请回答" ++ DQUOTE ++ UNKNOWN_MARKER
    ++ DQUOTE ++ py "。" ++ LF ++ LF ++ py "已检索到的片段：" ++ LF.
Proof. vm_compute. reflexivity. Qed.

Lemma build_prompt_tail :
  LF ++ LF ++ py "请给出简洁准确的回答，并在最后列出引用来源（文件名和片段编号）。"
  = LF ++ LF ++ py "请给出简洁准确的回答，并在最后" ++ CITE_BY_LABEL ++ py "。".
Proof. vm_compute. reflexivity. Qed.

(** C6, as amended: on a non-empty result list both assemblers open with
    the instruction to answer only from the supplied fragments, and with
    the marker for unknown when they hold no answer; then come the
    fragments in ranking order, the block at position [k] (from 0) being
    the label with the number [k + 1] and the source, then the fragment's
    text; the query follows verbatim, and the prompt ends with the request
    to list the cited sources, which [build_prompt] asks for by file name
    and fragment number, the two parts of the label. *)
Theorem prompt_layout (query : str) (docs : list doc) :
  docs <> [] ->
  (exists blocks,
     make_prompt query docs
     = (py "下面是检索到的知识片段（仅供参考）。" ++ ONLY_THESE_MAKE
        ++ py "，如果片段中没有相关信息，请回答“" ++ UNKNOWN_MARKER ++ py "”。"
        ++ LF ++ LF)
       ++ join LF blocks ++ LF ++ QUESTION ++ query
       ++ (LF ++ LF ++ py "请给出简洁准确的回答，并在末尾" ++ CITE_SOURCES
           ++ py "。") /\
     length blocks = length docs /\
     (forall k d, docs !! k = Some d ->
        blocks !! k = Some (part (S k) (doc_source d) (doc_text d)))) /\
  (exists blocks,
     build_prompt query docs
     = (py "下面是检索到的知识片段（可能有冗余），" ++ ONLY_THESE_BUILD ++ py "。"
        ++ LF ++ py "如果片段中没有相关信息，请回答" ++ DQUOTE ++ UNKNOWN_MARKER
        ++ DQUOTE ++ py "。" ++ LF ++ LF ++ py "已检索到的片段：" ++ LF)
       ++ join LF blocks ++ LF ++ LF ++ QUESTION ++ query
       ++ (LF ++ LF ++ py "请给出简洁准确的回答，并在最后" ++ CITE_BY_LABEL
           ++ py "。") /\
     length blocks = length docs /\
     (forall k d, docs !! k = Some d ->
        blocks !! k = Some (part (S k) (doc_source d) (doc_page_text d)))).
Proof.
  intros Hne. split.
  - exists (map (fun '(i, d) => part i (doc_source d) (doc_text d))
                (enumerate 1 docs)).
    split; [| split].
    + rewrite make_prompt_unfold, <- make_prompt_head, <- make_prompt_tail.
      unfold QUESTION. rewrite <- !app_assoc. reflexivity.
    + by rewrite length_map, enumerate_length.
    + intros k d. apply parts_lookup.
  - destruct docs as [|d0 docs]; [congruence |].
    exists (map (fun '(i, d) => part i (doc_source d) (doc_page_text d))
                (enumerate 1 (d0 :: docs))).
    split; [| split].
    + rewrite build_prompt_cons, <- build_prompt_head, <- build_prompt_tail.
      unfold QUESTION. rewrite <- !app_assoc. reflexivity.
    + by rewrite length_map, enumerate_length.
    + intros k d. apply parts_lookup.
Qed.

Lemma prompt_layout_witness :
  (exists blocks,
     make_prompt (py "如何更换电池?") [manual_doc; bare_doc]
     = (py "下面是检索到的知识片段（仅供参考）。" ++ ONLY_THESE_MAKE
        ++ py "，如果片段中没有相关信息，请回答“" ++ UNKNOWN_MARKER ++ py "”。"
        ++ LF ++ LF)
       ++ join LF blocks ++ LF ++ QUESTION ++ (py "如何更换电池?")
       ++ (LF ++ LF ++ py "请给出简洁准确的回答，并在末尾" ++ CITE_SOURCES
           ++ py "。") /\
     length blocks = length [manual_doc; bare_doc] /\
     (forall k d, [manual_doc; bare_doc] !! k = Some d ->
        blocks !! k = Some (part (S k) (doc_source d) (doc_text d)))) /\
  (exists blocks,
     build_prompt (py "如何更换电池?") [manual_doc; bare_doc]
     = (py "下面是检索到的知识片段（可能有冗余），" ++ ONLY_THESE_BUILD ++ py "。"
        ++ LF ++ py "如果片段中没有相关信息，请回答" ++ DQUOTE ++ UNKNOWN_MARKER
        ++ DQUOTE ++ py "。" ++ LF ++ LF ++ py "已检索到的片段：" ++ LF)
       ++ join LF blocks ++ LF ++ LF ++ QUESTION ++ (py "如何更换电池?")
       ++ (LF ++ LF ++ py "请给出简洁准确的回答，并在最后" ++ CITE_BY_LABEL
           ++ py "。") /\
     length blocks = length [manual_doc; bare_doc] /\
     (forall k d, [manual_doc; bare_doc] !! k = Some d ->
        blocks !! k = Some (part (S k) (doc_source d) (doc_page_text d)))).
Proof.
  apply (prompt_layout (py "如何更换电池?") [manual_doc; bare_doc]).
  discriminate.
Defined.

(** The prompt of [make_prompt] for the two sample fragments. *)
Example make_prompt_two_fragments :
  make_prompt (py "如何更换电池?") [manual_doc; bare_doc]
  = py "下面是检索到的知识片段（仅供参考）。请**仅基于这些片段**回答用户问题，"
    ++ py "如果片段中没有相关信息，请回答“我不知道”。" ++ LF ++ LF
    ++ py "[片段 1 | 来源: manual.pdf]" ++ LF
    ++ py "更换电池前请先关闭电源。" ++ LF ++ LF
    ++ py "[片段 2 | 来源: unknown]" ++ LF
    ++ py "电池型号为 CR2032。" ++ LF ++ LF
    ++ py "用户问题：如何更换电池?" ++ LF ++ LF
    ++ py "请给出简洁准确的回答，并在末尾列出引用来源。".
Proof. vm_compute. reflexivity. Qed.

(** C6 as stated fails: in neither prompt does the instruction that
    restricts the model to the supplied fragments follow the fragments; it
    stands before them.  And the request of [make_prompt] to list the
    cited sources names neither the file name nor the fragment number;
    only [build_prompt] asks for them. *)
Lemma restriction_does_not_follow_fragments :
  ~ occurs_after (part 1 (doc_source manual_doc) (doc_text manual_doc))
      ONLY_THESE_MAKE (make_prompt (py "如何更换电池?") [manual_doc]) /\
  ~ occurs_after (part 1 (doc_source manual_doc) (doc_page_text manual_doc))
      ONLY_THESE_BUILD (build_prompt (py "如何更换电池?") [manual_doc]) /\
  occurs_in ONLY_THESE_MAKE (make_prompt (py "如何更换电池?") [manual_doc]) /\
  occurs_in ONLY_THESE_BUILD (build_prompt (py "如何更换电池?") [manual_doc]) /\
  ~ occurs_in (py "文件名") (make_prompt (py "如何更换电池?") [manual_doc]) /\
  ~ occurs_in (py "片段编号") (make_prompt (py "如何更换电池?") [manual_doc]) /\
  occurs_in CITE_BY_LABEL (build_prompt (py "如何更换电池?") [manual_doc]).
Proof.
  split; [| split; [| split; [| split; [| split; [| split]]]]].
  - intros H. apply occurs_afterb_complete in H. vm_compute in H. discriminate.
  - intros H. apply occurs_afterb_complete in H. vm_compute in H. discriminate.
  - occurs_by_computation.
  - occurs_by_computation.
  - intros H. apply occurs_inb_complete in H. vm_compute in H. discriminate.
  - intros H. apply occurs_inb_complete in H. vm_compute in H. discriminate.
  - occurs_by_computation.
Qed.

(** ** The extraction functions *)

Import Extractor.

Lemma lstrip_by_head (p : N -> bool) (c : N) (s : str) :
  p c = false -> lstrip_by p (c :: s) = c :: s.
Proof. intros H. simpl. by rewrite H. Qed.

Lemma rstrip_by_app_keep (p : N -> bool) (u r : str) :
  Forall (fun c => p c = false) u ->
  rstrip_by p (u ++ r) = u ++ rstrip_by p r.
Proof.
  induction 1 as [|c u Hc _ IH]; [reflexivity |].
  simpl. rewrite IH, Hc. by destruct (u ++ rstrip_by p r).
Qed.

(** Trimming keeps the tag at the front of an error text. *)
Lemma strip_error_tag (rest : str) :
  ERROR_TAG `prefix_of` strip (ERROR_TAG ++ rest).
Proof.
  assert (Htag : ERROR_TAG = [91; 69; 82; 82; 79; 82; 93]%N)
    by (vm_compute; reflexivity).
  rewrite Htag. unfold strip.
  change (([91; 69; 82; 82; 79; 82; 93]%N : str) ++ rest)
    with (91%N :: ([69; 82; 82; 79; 82; 93]%N : str) ++ rest).
  rewrite lstrip_by_head by reflexivity.
  change (91%N :: ([69; 82; 82; 79; 82; 93]%N : str) ++ rest)
    with (([91; 69; 82; 82; 79; 82; 93]%N : str) ++ rest).
  rewrite rstrip_by_app_keep by (repeat constructor).
  by exists (rstrip_by isspace rest).
Qed.

Lemma error_text_tag (kind path : str) (e : exn) :
  exists rest, error_text kind path e = ERROR_TAG ++ rest.
Proof.
  assert (Hnf : py "[ERROR] 文件未找到: " = ERROR_TAG ++ py " 文件未找到: ")
    by (vm_compute; reflexivity).
  assert (Hex : py "[ERROR] 从 " = ERROR_TAG ++ py " 从 ")
    by (vm_compute; reflexivity).
  destruct e; unfold error_text; rewrite ?Hnf, ?Hex, <- ?app_assoc; eauto.
Qed.

Lemma strip_error_text (kind path : str) (e : exn) :
  ERROR_TAG `prefix_of` strip (error_text kind path e).
Proof.
  destruct (error_text_tag kind path e) as [rest ->]. apply strip_error_tag.
Qed.

Section ExtractorFacts.

Context {dataframe bytes : Type}.
Variable path_exists : str -> bool.
Variable path_ext : str -> str.
Variable pdf_pages : str -> result (list (result (option str))).
Variable read_excel : str -> result (list (str * bool * result str)).
Variable read_text : str -> result str.
Variable strip_markdown : str -> result str.
Variable docx_document : str -> result (list str * list (list (list str))).
Variable read_csv : str -> option str -> result dataframe.
Variable to_string : dataframe -> result str.
Variable read_bytes : str -> result bytes.
Variable chardet_detect : bytes -> result (option str).


End ExtractorFacts.






(** What the caller of [extract_pdf] receives for a missing file. *)
Example extract_pdf_missing_file :
  extract_pdf (fun _ => false) (fun _ => Ok []) (py "missing.pdf")
  = py "[ERROR] 文件未找到: PDF 文件不存在: missing.pdf".
Proof. vm_compute. reflexivity. Qed.

(** ** The quickstart chunking loop *)

Lemma quickstart_loop_fuel_mono (doc : Quickstart.raw_doc) (fuel fuel' : nat) :
  forall st r,
    fuel <= fuel' ->
    Quickstart.chunk_loop fuel doc st = Some r ->
    Quickstart.chunk_loop fuel' doc st = Some r.
Proof.
  revert fuel'. induction fuel as [|fuel IH]; intros fuel' st r Hle.
  - destruct fuel'; simpl;
      destruct (Quickstart.start st <? len (Quickstart.doc_text doc))%Z;
      congruence.
  - destruct fuel' as [|fuel']; [lia |]. simpl.
    destruct (Quickstart.start st <? len (Quickstart.doc_text doc))%Z;
      [| congruence].
    destruct (Quickstart.chunk_step doc st) as [st'|r']; [| congruence].
    apply IH. lia.
Qed.

(** What the loop returns from a state it reaches, it returns from the
    start. *)
Lemma quickstart_reaches_result (doc : Quickstart.raw_doc)
    (st0 st : Quickstart.state) :
  Quickstart.reaches doc st0 st ->
  forall fuel r,
    Quickstart.chunk_loop fuel doc st = Some r ->
    exists fuel0, Quickstart.chunk_loop fuel0 doc st0 = Some r.
Proof.
  induction 1 as [|st st' _ IH Hlt Hstep]; intros fuel r Hrun; [eauto |].
  apply (IH (S fuel)). simpl.
  apply Z.ltb_lt in Hlt. rewrite Hlt, Hstep. exact Hrun.
Qed.

(** C10: when the quickstart loop arrives, before the end of the text, at
    a window that strips to the empty string, it stops there: the document
    contributes the fragments collected before that window and nothing
    after it, whatever text remains. *)
Theorem blank_window_stops_document (doc : Quickstart.raw_doc)
    (chunks0 : list str) (metadatas0 : list Quickstart.meta)
    (st : Quickstart.state) :
  Quickstart.reaches doc (Quickstart.mkState 0 0 chunks0 metadatas0) st ->
  (Quickstart.start st < len (Quickstart.doc_text doc))%Z ->
  strip (slice (Quickstart.doc_text doc) (Quickstart.start st)
           (Z.min (Quickstart.start st + Quickstart.CHUNK_SIZE)
                  (len (Quickstart.doc_text doc)))) = [] ->
  Quickstart.chunk_step doc st
  = Break (Quickstart.chunks st, Quickstart.metadatas st) /\
  exists fuel0, forall fuel, fuel0 <= fuel ->
    Quickstart.chunk_doc fuel doc chunks0 metadatas0
    = Some (Quickstart.chunks st, Quickstart.metadatas st).
Proof.
  intros Hreach Hlt Hblank.
  assert (Hstep : Quickstart.chunk_step doc st
                  = Break (Quickstart.chunks st, Quickstart.metadatas st)).
  { unfold Quickstart.chunk_step. rewrite Hblank. reflexivity. }
  split; [exact Hstep |].
  destruct (quickstart_reaches_result doc _ st Hreach 1
              (Quickstart.chunks st, Quickstart.metadatas st)) as [fuel0 Hrun].
  { simpl. apply Z.ltb_lt in Hlt. rewrite Hlt, Hstep. reflexivity. }
  exists fuel0. intros fuel Hle. unfold Quickstart.chunk_doc.
  eapply quickstart_loop_fuel_mono; eassumption.
Qed.

Lemma blank_window_stops_document_witness :
  Quickstart.chunk_step
    (Quickstart.mkRawDoc
       (replicate 400 120%N ++ replicate 600 32%N ++ py "tail") (py "a.txt"))
    (Quickstart.mkState 400 1 [replicate 400 120%N]
       [Quickstart.mkMeta (py "a.txt") 0])
  = Break ([replicate 400 120%N], [Quickstart.mkMeta (py "a.txt") 0]) /\
  exists fuel0, forall fuel, fuel0 <= fuel ->
    Quickstart.chunk_doc fuel
      (Quickstart.mkRawDoc
         (replicate 400 120%N ++ replicate 600 32%N ++ py "tail") (py "a.txt"))
      [] []
    = Some ([replicate 400 120%N], [Quickstart.mkMeta (py "a.txt") 0]).
Proof.
  apply (blank_window_stops_document
           (Quickstart.mkRawDoc
              (replicate 400 120%N ++ replicate 600 32%N ++ py "tail")
              (py "a.txt"))
           [] []
           (Quickstart.mkState 400 1 [replicate 400 120%N]
              [Quickstart.mkMeta (py "a.txt") 0])).
  - eapply Quickstart.reaches_next;
      [apply Quickstart.reaches_here | vm_compute; reflexivity
      | vm_compute; reflexivity].
  - vm_compute. reflexivity.
  - vm_compute. reflexivity.
Defined.

(** The same document through the whole loop: the text "tail" that follows
    the blank window appears in no fragment, and the next document is
    chunked as usual. *)
Example quickstart_tail_discarded :
  Quickstart.chunk_docs 4
    [Quickstart.mkRawDoc
       (replicate 400 120%N ++ replicate 600 32%N ++ py "tail") (py "a.txt");
     Quickstart.mkRawDoc (py "second") (py "b.txt")]
    [] []
  = Some ([replicate 400 120%N; py "second"],
          [Quickstart.mkMeta (py "a.txt") 0; Quickstart.mkMeta (py "b.txt") 0]).
Proof. vm_compute. reflexivity. Qed.

(** * Further properties of the code *)

(** ** More on trimming *)

Lemma rstrip_by_idemp (p : N -> bool) (s : str) :
  rstrip_by p (rstrip_by p s) = rstrip_by p s.
Proof.
  induction s as [|c s IH]; [reflexivity |]. simpl.
  destruct (rstrip_by p s) as [|x r] eqn:E.
  - destruct (p c) eqn:Hc; simpl; [reflexivity | by rewrite Hc].
  - simpl in IH. simpl. rewrite IH. reflexivity.
Qed.

Lemma rstrip_by_keeps_head (p : N -> bool) (c : N) (s : str) :
  p c = false -> exists r, rstrip_by p (c :: s) = c :: r.
Proof.
  intros Hc. simpl. destruct (rstrip_by p s); rewrite ?Hc; eauto.
Qed.

Lemma lstrip_by_head_cases (p : N -> bool) (s : str) :
  lstrip_by p s = [] \/
  exists c u, lstrip_by p s = c :: u /\ p c = false.
Proof.
  induction s as [|c s IH]; simpl; [by left |].
  destruct (p c) eqn:Hc; [exact IH | right; eauto].
Qed.

Lemma strip_idemp (s : str) : strip (strip s) = strip s.
Proof.
  unfold strip.
  destruct (lstrip_by_head_cases isspace s) as [->|(c & u & -> & Hc)];
    [reflexivity |].
  destruct (rstrip_by_keeps_head isspace c u Hc) as [r Hr].
  rewrite Hr, lstrip_by_head by assumption. rewrite <- Hr.
  apply rstrip_by_idemp.
Qed.

Lemma strip_length_le (s : str) : length (strip s) <= length s.
Proof.
  destruct (strip_window s) as (k & m & -> & Hlen & _).
  rewrite length_take, length_drop. lia.
Qed.

(** A text without white space is its own trimming. *)
Lemma strip_solid (s : str) :
  Forall (fun c => isspace c = false) s -> strip s = s.
Proof.
  intros Hs. unfold strip.
  assert (Hl : lstrip_by isspace s = s).
  { destruct Hs as [|c s Hc _]; [reflexivity |]. by apply lstrip_by_head. }
  rewrite Hl. rewrite <- (app_nil_r s) at 1.
  rewrite rstrip_by_app_keep by assumption. apply app_nil_r.
Qed.

(** The trimming of a slice of [text] is again a slice of [text], inside
    the first one. *)
Lemma strip_slice_shape (text : str) (start stop : Z) :
  (0 <= start)%Z -> (start <= stop)%Z -> (stop <= len text)%Z ->
  exists p m : nat,
    strip (slice text start stop) = take m (drop p text) /\
    length (strip (slice text start stop)) = m /\
    Z.to_nat start <= p /\ p + m <= Z.to_nat stop.
Proof.
  intros Hs Hse He. rewrite slice_inside by lia.
  set (s := Z.to_nat start). set (n := Z.to_nat (stop - start)).
  destruct (strip_window (take n (drop s text))) as (k & m & Hst & Hlen & _).
  rewrite length_take, length_drop in Hlen.
  assert (Hfrag : strip (take n (drop s text)) = take m (drop (s + k) text)).
  { rewrite Hst, take_drop_commute, take_take, Nat.min_l by lia.
    rewrite <- take_drop_commute, drop_drop. reflexivity. }
  exists (s + k), m. split; [exact Hfrag |]. split; [| split].
  - rewrite Hfrag, length_take, length_drop. unfold len in He. lia.
  - lia.
  - subst s n. lia.
Qed.

(** ** More on the fixed-window chunker *)

Section ChunkerInvariant.

Local Open Scope Z_scope.

Variables (text : str) (chunk_size overlap : Z).
Hypothesis Hsize : 0 < chunk_size.

(** A property of fragments that every trimmed, non-empty window has. *)
Variable P : str -> Prop.
Hypothesis HP :
  forall start,
    0 <= start < len text ->
    strip (slice text start (Z.min (start + chunk_size) (len text))) <> [] ->
    P (strip (slice text start (Z.min (start + chunk_size) (len text)))).

Lemma chunk_step_Forall start chunks :
  0 <= start < len text -> Forall P chunks ->
  match chunk_step text chunk_size overlap start chunks with
  | Break r => Forall P r
  | Continue (start', chunks') => 0 <= start' /\ Forall P chunks'
  end.
Proof.
  intros Hstart Hall. unfold chunk_step.
  set (e := Z.min (start + chunk_size) (len text)).
  set (chunk := strip (slice text start e)).
  assert (Hall1 : Forall P (if truthy chunk then chunks ++ [chunk] else chunks)).
  { destruct (truthy chunk) eqn:Ht; [| exact Hall].
    apply Forall_app. split; [exact Hall |]. constructor; [| constructor].
    apply HP; [exact Hstart |]. fold e. fold chunk. by destruct chunk. }
  destruct (_ || _); [exact Hall1 |]. split; [| exact Hall1].
  destruct (Z.ltb_spec (e - overlap) 0); lia.
Qed.

Lemma chunk_loop_Forall fuel :
  forall start chunks r,
    0 <= start -> Forall P chunks ->
    chunk_loop fuel text chunk_size overlap start chunks = Some r ->
    Forall P r.
Proof.
  induction fuel as [|fuel IH]; intros start chunks r Hs Hall; simpl.
  - destruct (start <? len text); [discriminate | congruence].
  - destruct (Z.ltb_spec start (len text)); [| congruence].
    pose proof (chunk_step_Forall start chunks ltac:(lia) Hall) as Hstep.
    destruct (chunk_step _ _ _ _ _) as [[start' chunks']|r'].
    + destruct Hstep. eauto.
    + congruence.
Qed.

End ChunkerInvariant.

Lemma simple_chunk_text_Forall (P : str -> Prop)
    (text : str) (chunk_size overlap : Z) (fuel : nat) (chunks : list str) :
  (forall start,
     (0 < chunk_size)%Z -> (0 <= start < len text)%Z ->
     strip (slice text start (Z.min (start + chunk_size) (len text))) <> [] ->
     P (strip (slice text start (Z.min (start + chunk_size) (len text))))) ->
  simple_chunk_text fuel text chunk_size overlap = Some (Ok chunks) ->
  Forall P chunks.
Proof.
  intros HP. unfold simple_chunk_text.
  destruct (Z.leb_spec chunk_size 0); [discriminate |].
  destruct (overlap >=? chunk_size)%Z; [discriminate |].
  destruct (chunk_loop _ _ _ _ _ _) as [r|] eqn:Hrun; [| discriminate].
  intros [= <-].
  eapply (chunk_loop_Forall text chunk_size overlap P); [| | | exact Hrun];
    [intros; apply HP; assumption | lia | constructor].
Qed.

(** X1: every fragment [simple_chunk_text] returns is non-empty and
    trimmed: it neither starts nor ends with white space, so trimming it
    again changes nothing. *)
Theorem simple_chunk_text_fragments_trimmed
    (text : str) (chunk_size overlap : Z) (fuel : nat) (chunks : list str) :
  simple_chunk_text fuel text chunk_size overlap = Some (Ok chunks) ->
  Forall (fun frag => frag <> [] /\ strip frag = frag) chunks.
Proof.
  apply simple_chunk_text_Forall. intros start _ _ Hne.
  split; [exact Hne | apply strip_idemp].
Qed.

Lemma simple_chunk_text_fragments_trimmed_witness :
  Forall (fun frag => frag <> [] /\ strip frag = frag)
         [py "AAAA"; py "BBBB"; py "B CCC"; py "CC"].
Proof.
  apply (simple_chunk_text_fragments_trimmed (py "AAAA BBBB CCCC") 5 1 14).
  vm_compute. reflexivity.
Defined.

(** X2: every fragment [simple_chunk_text] returns has at most
    [chunk_size] characters and is a contiguous slice of the text. *)
Theorem simple_chunk_text_fragments_bounded
    (text : str) (chunk_size overlap : Z) (fuel : nat) (chunks : list str) :
  simple_chunk_text fuel text chunk_size overlap = Some (Ok chunks) ->
  Forall (fun frag =>
            (len frag <= chunk_size)%Z /\
            exists p : nat,
              p + length frag <= length text /\
              take (length frag) (drop p text) = frag)
         chunks.
Proof.
  apply simple_chunk_text_Forall. intros start Hsize Hstart _.
  destruct (strip_slice_shape text start
              (Z.min (start + chunk_size) (len text)))
    as (p & m & Hfrag & Hm & Hp & Hpm); try lia.
  rewrite Hm. split.
  - unfold len in *. rewrite Hm. lia.
  - exists p. split; [unfold len in *; lia | symmetry; exact Hfrag].
Qed.

Lemma simple_chunk_text_fragments_bounded_witness :
  Forall (fun frag =>
            (len frag <= 5)%Z /\
            exists p : nat,
              p + length frag <= length (py "AAAA BBBB CCCC") /\
              take (length frag) (drop p (py "AAAA BBBB CCCC")) = frag)
         [py "AAAA"; py "BBBB"; py "B CCC"; py "CC"].
Proof.
  apply (simple_chunk_text_fragments_bounded (py "AAAA BBBB CCCC") 5 1 14).
  vm_compute. reflexivity.
Defined.

Section ChunkerCount.

Local Open Scope Z_scope.

Variables (text : str) (chunk_size overlap : Z).
Hypothesis Hoverlap : 0 <= overlap < chunk_size.

(** With [n] fragments collected the loop stands at [n] steps or further,
    and a step before the end of the text. *)
Let counted (start : Z) (chunks : list str) : Prop :=
  Z.of_nat (length chunks) * (chunk_size - overlap) <= start /\
  Z.of_nat (length chunks) * (chunk_size - overlap)
    < len text + (chunk_size - overlap).

Lemma chunk_loop_count fuel :
  forall start chunks r,
    0 <= start -> counted start chunks ->
    chunk_loop fuel text chunk_size overlap start chunks = Some r ->
    Z.of_nat (length r) * (chunk_size - overlap)
      < len text + (chunk_size - overlap).
Proof.
  induction fuel as [|fuel IH]; intros start chunks r Hs [Hle Hlt]; simpl.
  - destruct (start <? len text); [discriminate |]. intros [= <-]. exact Hlt.
  - destruct (Z.ltb_spec start (len text)) as [Hin|]; [| by intros [= <-]].
    unfold chunk_step.
    set (e := Z.min (start + chunk_size) (len text)).
    set (chunk := strip (slice text start e)).
    set (chunks1 := if truthy chunk then chunks ++ [chunk] else chunks).
    assert (Hn : Z.of_nat (length chunks1) * (chunk_size - overlap)
                 <= start + (chunk_size - overlap)).
    { subst chunks1. destruct (truthy chunk); [| lia].
      rewrite length_app. simpl. lia. }
    destruct (Z.ltb_spec (e - overlap) 0).
    + destruct (_ || _) eqn:Hcond; [intros [= <-]; lia |].
      apply orb_false_iff in Hcond as [_ He]. apply Z.eqb_neq in He.
      subst e. lia.
    + destruct (_ || _) eqn:Hcond; [intros [= <-]; lia |].
      apply orb_false_iff in Hcond as [Hc He].
      apply Z.eqb_neq in He.
      assert (e = start + chunk_size) by (subst e; lia).
      apply IH; [lia |]. split; [lia |].
      destruct (Z.geb_spec (e - overlap) (len text)); [discriminate | lia].
Qed.

End ChunkerCount.

(** X3: for [0 <= overlap < chunk_size], [simple_chunk_text] returns at
    most one fragment per step of [chunk_size - overlap] characters, the
    last step counted in full: [n] fragments mean that
    [(n - 1) * (chunk_size - overlap)] is below the length of the text. *)
Theorem simple_chunk_text_count
    (text : str) (chunk_size overlap : Z) (fuel : nat) (chunks : list str) :
  (0 <= overlap < chunk_size)%Z ->
  simple_chunk_text fuel text chunk_size overlap = Some (Ok chunks) ->
  (Z.of_nat (length chunks) * (chunk_size - overlap)
   < len text + (chunk_size - overlap))%Z.
Proof.
  intros Hov. unfold simple_chunk_text.
  destruct (chunk_size <=? 0)%Z; [discriminate |].
  destruct (overlap >=? chunk_size)%Z; [discriminate |].
  destruct (chunk_loop _ _ _ _ _ _) as [r|] eqn:Hrun; [| discriminate].
  intros [= <-].
  eapply (chunk_loop_count text chunk_size overlap Hov); [| | exact Hrun];
    [lia |]. simpl. unfold len. lia.
Qed.

Lemma simple_chunk_text_count_witness :
  (Z.of_nat (length [py "AAAA"; py "BBBB"; py "B CCC"; py "CC"]) * (5 - 1)
   < len (py "AAAA BBBB CCCC") + (5 - 1))%Z.
Proof.
  apply (simple_chunk_text_count (py "AAAA BBBB CCCC") 5 1 14);
    [lia | vm_compute; reflexivity].
Defined.

Lemma slice_min_stop {A} (s : list A) (a b : Z) :
  (0 <= b)%Z -> slice s a (Z.min b (len s)) = slice s a b.
Proof.
  intros Hb. unfold slice, clamp_index.
  assert (0 <= len s)%Z by (unfold len; lia).
  destruct (Z.ltb_spec (Z.min b (len s)) 0); [lia |].
  destruct (Z.ltb_spec b 0); [lia |].
  rewrite Z.min_l by lia. reflexivity.
Qed.

Lemma slice_Forall {A} (P : A -> Prop) (s : list A) (a b : Z) :
  Forall P s -> Forall P (slice s a b).
Proof. intros H. unfold slice. by apply Forall_take, Forall_drop. Qed.

Lemma slice_length {A} (s : list A) (a b : Z) :
  (0 <= a)%Z -> (a <= b)%Z -> (b <= len s)%Z ->
  len (slice s a b) = (b - a)%Z.
Proof.
  intros Ha Hab Hb. rewrite slice_inside by assumption.
  unfold len in *. rewrite length_take, length_drop. lia.
Qed.

Section ChunkerSolid.

Local Open Scope Z_scope.

Variables (text : str) (chunk_size overlap : Z).
Hypothesis Hsize : 0 < chunk_size.
Hypothesis Hoverlap : 0 <= overlap < chunk_size.
Hypothesis Hsolid : Forall (fun c => isspace c = false) text.

(** On a text without white space a pass appends its whole window. *)
Lemma chunk_step_solid start chunks :
  0 <= start < len text ->
  chunk_step text chunk_size overlap start chunks
  = let e := Z.min (start + chunk_size) (len text) in
    if e =? len text
    then Break (chunks ++ [slice text start (start + chunk_size)])
    else Continue (start + (chunk_size - overlap),
                   chunks ++ [slice text start (start + chunk_size)]).
Proof.
  intros Hstart. unfold chunk_step. cbv zeta.
  set (e := Z.min (start + chunk_size) (len text)).
  assert (Hw : strip (slice text start e) = slice text start (start + chunk_size)).
  { rewrite strip_solid by (by apply slice_Forall).
    subst e. apply slice_min_stop. lia. }
  assert (Hne : truthy (slice text start (start + chunk_size)) = true).
  { pose proof (slice_length text start e ltac:(lia) ltac:(subst e; lia)
                  ltac:(subst e; lia)) as Hl.
    subst e. rewrite slice_min_stop in Hl by lia.
    destruct (slice text start (start + chunk_size)); [| reflexivity].
    unfold len in *. simpl in Hl. lia. }
  rewrite Hw, Hne.
  destruct (Z.eqb_spec e (len text)) as [He|He].
  - by rewrite orb_true_r.
  - assert (Hlt : start + chunk_size < len text) by (subst e; lia).
    assert (e = start + chunk_size) as -> by (subst e; lia).
    destruct (Z.ltb_spec (start + chunk_size - overlap) 0); [lia |].
    destruct (Z.geb_spec (start + chunk_size - overlap) (len text)); [lia |].
    simpl. do 2 f_equal. lia.
Qed.

(** The fragments so far are the windows at the first starts, all of them
    short of the end of the text. *)
Let windows (chunks : list str) : Prop :=
  (forall (k : nat) frag,
     chunks !! k = Some frag ->
     frag = slice text (Z.of_nat k * (chunk_size - overlap))
                  (Z.of_nat k * (chunk_size - overlap) + chunk_size)).

Lemma chunk_loop_solid fuel :
  forall start chunks r,
    start = Z.of_nat (length chunks) * (chunk_size - overlap) ->
    windows chunks ->
    (forall k : nat, (k < length chunks)%nat ->
       Z.of_nat k * (chunk_size - overlap) + chunk_size < len text) ->
    chunk_loop fuel text chunk_size overlap start chunks = Some r ->
    windows r /\
    (forall k : nat, (S k < length r)%nat ->
       Z.of_nat k * (chunk_size - overlap) + chunk_size < len text) /\
    (text <> [] ->
     r <> [] /\
     len text
     <= (Z.of_nat (length r) - 1) * (chunk_size - overlap) + chunk_size).
Proof.
  induction fuel as [|fuel IH]; intros start chunks r Hstart Hwin Hfull.
  - simpl. destruct (Z.ltb_spec start (len text)); [discriminate |].
    intros [= <-]. split; [exact Hwin |]. split.
    + intros k Hk. apply Hfull. lia.
    + intros Hne. exfalso. destruct chunks as [|c chunks].
      * simpl in Hstart. destruct text; [congruence |].
        unfold len in *. simpl in *. lia.
      * pose proof (Hfull (length chunks) ltac:(simpl; lia)) as Hlast.
        simpl length in Hstart. lia.
  - simpl. destruct (Z.ltb_spec start (len text)) as [Hin|Hout].
    + assert (Hnn : 0 <= start) by (subst start; nia).
      rewrite chunk_step_solid by lia. cbv zeta.
      assert (Hwin1 : windows (chunks ++ [slice text start (start + chunk_size)])).
      { intros k frag Hk. apply lookup_app_Some in Hk as [Hk|[Hge Hk]].
        - by apply Hwin.
        - destruct (k - length chunks)%nat as [|j] eqn:Hj; [| discriminate Hk].
          simpl in Hk. injection Hk as <-.
          assert (k = length chunks) as -> by lia. rewrite <- Hstart.
          reflexivity. }
      destruct (Z.eqb_spec (Z.min (start + chunk_size) (len text)) (len text))
        as [He|He].
      * intros [= <-]. split; [exact Hwin1 |]. rewrite length_app. simpl.
        split.
        -- intros k Hk. apply Hfull. lia.
        -- intros _. split; [by destruct chunks |]. lia.
      * apply IH.
        -- rewrite length_app. simpl. lia.
        -- exact Hwin1.
        -- rewrite length_app. simpl. intros k Hk.
           destruct (decide (k < length chunks)%nat) as [Hlt|Hge];
             [by apply Hfull |].
           assert (k = length chunks) as -> by lia. lia.
    + intros [= <-]. split; [exact Hwin |]. split.
      * intros k Hk. apply Hfull. lia.
      * intros Hne. exfalso. destruct chunks as [|c chunks].
        -- simpl in Hstart. destruct text; [congruence |].
           unfold len in *. simpl in *. lia.
        -- pose proof (Hfull (length chunks) ltac:(simpl; lia)) as Hlast.
           simpl length in Hstart. lia.
Qed.

Hypothesis Hzero : overlap = 0.

Lemma chunk_loop_solid_concat fuel :
  forall start chunks r,
    0 <= start ->
    concat chunks = take (Z.to_nat start) text ->
    chunk_loop fuel text chunk_size overlap start chunks = Some r ->
    concat r = text.
Proof.
  induction fuel as [|fuel IH]; intros start chunks r Hs Hcat; simpl.
  - destruct (Z.ltb_spec start (len text)); [discriminate |].
    intros [= <-]. rewrite Hcat. apply take_ge. unfold len in *. lia.
  - destruct (Z.ltb_spec start (len text)) as [Hin|Hout].
    + rewrite chunk_step_solid by lia. cbv zeta.
      assert (Hcat1 : concat (chunks ++ [slice text start (start + chunk_size)])
                      = take (Z.to_nat (Z.min (start + chunk_size) (len text)))
                             text).
      { rewrite concat_app, Hcat. simpl. rewrite app_nil_r.
        rewrite <- (slice_min_stop text start (start + chunk_size)) by lia.
        rewrite slice_inside by lia. rewrite take_take_drop. f_equal. lia. }
      destruct (Z.eqb_spec (Z.min (start + chunk_size) (len text)) (len text))
        as [He|He].
      * intros [= <-]. rewrite Hcat1, He. apply take_ge. unfold len. lia.
      * apply IH; [lia |]. rewrite Hcat1. f_equal. lia.
    + intros [= <-]. rewrite Hcat. apply take_ge. unfold len in *. lia.
Qed.

End ChunkerSolid.

(** X4: on a text without white space, with overlap 0, the fragments of
    [simple_chunk_text] concatenate back to the text. *)
Theorem simple_chunk_text_solid_roundtrip
    (text : str) (chunk_size : Z) (fuel : nat) (chunks : list str) :
  Forall (fun c => isspace c = false) text ->
  simple_chunk_text fuel text chunk_size 0 = Some (Ok chunks) ->
  concat chunks = text.
Proof.
  intros Hsolid. unfold simple_chunk_text.
  destruct (Z.leb_spec chunk_size 0); [discriminate |].
  destruct (Z.geb_spec 0 chunk_size); [discriminate |].
  destruct (chunk_loop _ _ _ _ _ _) as [r|] eqn:Hrun; [| discriminate].
  intros [= <-].
  eapply (chunk_loop_solid_concat text chunk_size 0); try eassumption;
    try lia; reflexivity.
Qed.

Lemma simple_chunk_text_solid_roundtrip_witness :
  concat [py "abc"; py "def"; py "g"] = py "abcdefg".
Proof.
  apply (simple_chunk_text_solid_roundtrip (py "abcdefg") 3 7).
  - repeat constructor.
  - vm_compute. reflexivity.
Defined.

(** X5: on a text without white space, for [0 <= overlap < chunk_size],
    the fragments of [simple_chunk_text] are the windows of [chunk_size]
    characters at the starts [0], [step], [2 * step], ... with
    [step = chunk_size - overlap], up to and with the first window that
    reaches the end of the text: consecutive fragments share exactly
    [overlap] characters. *)
Theorem simple_chunk_text_solid_windows
    (text : str) (chunk_size overlap : Z) (fuel : nat) (chunks : list str) :
  (0 <= overlap < chunk_size)%Z ->
  Forall (fun c => isspace c = false) text ->
  simple_chunk_text fuel text chunk_size overlap = Some (Ok chunks) ->
  (forall (k : nat) frag,
     chunks !! k = Some frag ->
     frag = slice text (Z.of_nat k * (chunk_size - overlap))
                  (Z.of_nat k * (chunk_size - overlap) + chunk_size)) /\
  (forall k : nat, S k < length chunks ->
     (Z.of_nat k * (chunk_size - overlap) + chunk_size < len text)%Z) /\
  (text <> [] ->
   chunks <> [] /\
   (len text
    <= (Z.of_nat (length chunks) - 1) * (chunk_size - overlap) + chunk_size)%Z).
Proof.
  intros Hov Hsolid. unfold simple_chunk_text.
  destruct (Z.leb_spec chunk_size 0); [discriminate |].
  destruct (Z.geb_spec overlap chunk_size); [discriminate |].
  destruct (chunk_loop _ _ _ _ _ _) as [r|] eqn:Hrun; [| discriminate].
  intros [= <-].
  eapply (chunk_loop_solid text chunk_size overlap); try eassumption;
    try lia.
  - simpl. lia.
  - intros k frag Hk. discriminate Hk.
  - intros k Hk. simpl in Hk. lia.
Qed.

Lemma simple_chunk_text_solid_windows_witness :
  (forall (k : nat) frag,
     [py "abcd"; py "cdef"; py "efg"] !! k = Some frag ->
     frag = slice (py "abcdefg") (Z.of_nat k * (4 - 2))
                  (Z.of_nat k * (4 - 2) + 4)) /\
  (forall k : nat, S k < length [py "abcd"; py "cdef"; py "efg"] ->
     (Z.of_nat k * (4 - 2) + 4 < len (py "abcdefg"))%Z) /\
  (py "abcdefg" <> [] ->
   [py "abcd"; py "cdef"; py "efg"] <> [] /\
   (len (py "abcdefg")
    <= (Z.of_nat (length [py "abcd"; py "cdef"; py "efg"]) - 1) * (4 - 2) + 4)%Z).
Proof.
  apply (simple_chunk_text_solid_windows (py "abcdefg") 4 2 7).
  - lia.
  - repeat constructor.
  - vm_compute. reflexivity.
Defined.

(** ** More on the quickstart chunking loop *)

Section QuickstartFacts.

Local Open Scope Z_scope.

Variable doc : Quickstart.raw_doc.

Lemma quickstart_step_advances (st st' : Quickstart.state) :
  Quickstart.start st < len (Quickstart.doc_text doc) ->
  Quickstart.chunk_step doc st = Continue st' ->
  Quickstart.start st < Quickstart.start st'.
Proof.
  intros Hlt. unfold Quickstart.chunk_step, Quickstart.CHUNK_SIZE,
    Quickstart.CHUNK_OVERLAP.
  destruct (negb _); [discriminate |].
  destruct (_ >=? _); [discriminate |]. intros [= <-]. simpl.
  destruct (Z.gtb_spec
              (Z.min (Quickstart.start st + 500)
                     (len (Quickstart.doc_text doc)) - 100)
              (Quickstart.start st)); lia.
Qed.

Lemma quickstart_loop_total fuel :
  forall st,
    (Z.to_nat (len (Quickstart.doc_text doc) - Quickstart.start st) <= fuel)%nat ->
    exists r, Quickstart.chunk_loop fuel doc st = Some r.
Proof.
  induction fuel as [|fuel IH]; intros st Hfuel; simpl.
  - destruct (Z.ltb_spec (Quickstart.start st) (len (Quickstart.doc_text doc)));
      [lia | eauto].
  - destruct (Z.ltb_spec (Quickstart.start st) (len (Quickstart.doc_text doc)))
      as [Hlt|]; [| eauto].
    destruct (Quickstart.chunk_step doc st) as [st'|r] eqn:Hstep; [| eauto].
    apply quickstart_step_advances in Hstep; [| exact Hlt].
    apply IH. lia.
Qed.

(** The fragments [new] added for the document so far, with their
    metadata and the next index. *)
Variables (chunks0 : list str) (metadatas0 : list Quickstart.meta).

Let fragment_ok (frag : str) : Prop :=
  frag <> [] /\ strip frag = frag /\
  len frag <= Quickstart.CHUNK_SIZE /\
  exists p : nat,
    (p + length frag <= length (Quickstart.doc_text doc))%nat /\
    take (length frag) (drop p (Quickstart.doc_text doc)) = frag.

Let collected (new : list str) (chunks : list str)
    (metadatas : list Quickstart.meta) : Prop :=
  chunks = chunks0 ++ new /\
  metadatas
  = metadatas0
    ++ imap (fun k _ => Quickstart.mkMeta (Quickstart.doc_source doc)
                          (Z.of_nat k)) new /\
  Forall fragment_ok new.

Lemma quickstart_window_ok (start : Z) :
  0 <= start < len (Quickstart.doc_text doc) ->
  strip (slice (Quickstart.doc_text doc) start
           (Z.min (start + Quickstart.CHUNK_SIZE)
                  (len (Quickstart.doc_text doc)))) <> [] ->
  fragment_ok
    (strip (slice (Quickstart.doc_text doc) start
              (Z.min (start + Quickstart.CHUNK_SIZE)
                     (len (Quickstart.doc_text doc))))).
Proof.
  intros Hstart Hne. unfold Quickstart.CHUNK_SIZE in *.
  destruct (strip_slice_shape (Quickstart.doc_text doc) start
              (Z.min (start + 500) (len (Quickstart.doc_text doc))))
    as (p & m & Hfrag & Hm & Hp & Hpm); try lia.
  split; [exact Hne |]. split; [apply strip_idemp |]. split.
  - unfold len in *. rewrite Hm. lia.
  - exists p. rewrite Hm. split; [unfold len in *; lia | by symmetry].
Qed.

Lemma quickstart_loop_collects fuel :
  forall st new r,
    0 <= Quickstart.start st ->
    Quickstart.idx st = Z.of_nat (length new) ->
    collected new (Quickstart.chunks st) (Quickstart.metadatas st) ->
    Quickstart.chunk_loop fuel doc st = Some r ->
    exists new', collected new' (fst r) (snd r).
Proof.
  induction fuel as [|fuel IH]; intros st new r Hs Hidx Hcol; simpl.
  - destruct (_ <? _); [discriminate |]. intros [= <-]. eauto.
  - destruct (Z.ltb_spec (Quickstart.start st) (len (Quickstart.doc_text doc)))
      as [Hlt|]; [| intros [= <-]; eauto].
    unfold Quickstart.chunk_step.
    set (e := Z.min (Quickstart.start st + Quickstart.CHUNK_SIZE)
                    (len (Quickstart.doc_text doc))).
    set (chunk := strip (slice (Quickstart.doc_text doc) (Quickstart.start st) e)).
    destruct (truthy chunk) eqn:Ht; simpl negb; cbv iota;
      [| intros [= <-]; eauto].
    assert (Hcol1 :
              collected (new ++ [chunk]) (Quickstart.chunks st ++ [chunk])
                (Quickstart.metadatas st
                 ++ [Quickstart.mkMeta (Quickstart.doc_source doc)
                       (Quickstart.idx st)])).
    { destruct Hcol as (Hc & Hm & Hall). split; [| split].
      - rewrite Hc. by rewrite <- app_assoc.
      - rewrite Hm, imap_app, <- app_assoc. simpl.
        rewrite Nat.add_0_r, Hidx. reflexivity.
      - apply Forall_app. split; [exact Hall |]. constructor; [| constructor].
        apply quickstart_window_ok; [lia |]. fold e. fold chunk.
        by destruct chunk. }
    destruct (_ >=? _).
    + intros [= <-]. eauto.
    + apply (IH _ (new ++ [chunk])).
      * simpl. unfold Quickstart.CHUNK_OVERLAP, Quickstart.CHUNK_SIZE in *.
        destruct (Z.gtb_spec (e - 100) (Quickstart.start st)); subst e; lia.
      * simpl. rewrite length_app. simpl. lia.
      * exact Hcol1.
Qed.

End QuickstartFacts.

(** X6: the quickstart loop terminates on every document: a fuel of
    [len(txt)] passes per document is enough for the whole [for] loop over
    the documents to return. *)
Theorem quickstart_chunking_terminates (fuel : nat)
    (raw_docs : list Quickstart.raw_doc)
    (chunks : list str) (metadatas : list Quickstart.meta) :
  Forall (fun d => length (Quickstart.doc_text d) <= fuel) raw_docs ->
  exists r, Quickstart.chunk_docs fuel raw_docs chunks metadatas = Some r.
Proof.
  intros Hall. revert chunks metadatas.
  induction Hall as [|d docs Hd _ IH]; intros chunks metadatas; simpl;
    [eauto |].
  unfold Quickstart.chunk_doc.
  destruct (quickstart_loop_total d fuel
              (Quickstart.mkState 0 0 chunks metadatas)) as [[c m] ->].
  { simpl. unfold len. lia. }
  apply IH.
Qed.

Lemma quickstart_chunking_terminates_witness :
  exists r,
    Quickstart.chunk_docs 6
      [Quickstart.mkRawDoc (py "first") (py "a.txt");
       Quickstart.mkRawDoc (py "second") (py "b.txt")] [] []
    = Some r.
Proof.
  apply (quickstart_chunking_terminates 6
           [Quickstart.mkRawDoc (py "first") (py "a.txt");
            Quickstart.mkRawDoc (py "second") (py "b.txt")] [] []).
  repeat constructor.
Defined.

(** What one document adds to the two lists. *)
Lemma quickstart_doc_added (fuel : nat) (doc : Quickstart.raw_doc)
    (chunks0 : list str) (metadatas0 : list Quickstart.meta)
    (chunks : list str) (metadatas : list Quickstart.meta) :
  Quickstart.chunk_doc fuel doc chunks0 metadatas0 = Some (chunks, metadatas) ->
  exists new : list str,
    chunks = chunks0 ++ new /\
    metadatas
    = metadatas0
      ++ imap (fun k _ => Quickstart.mkMeta (Quickstart.doc_source doc)
                            (Z.of_nat k)) new /\
    Forall (fun frag =>
              frag <> [] /\ strip frag = frag /\
              (len frag <= Quickstart.CHUNK_SIZE)%Z /\
              exists p : nat,
                p + length frag <= length (Quickstart.doc_text doc) /\
                take (length frag) (drop p (Quickstart.doc_text doc)) = frag)
           new.
Proof.
  unfold Quickstart.chunk_doc. intros Hrun.
  destruct (quickstart_loop_collects doc chunks0 metadatas0 fuel
              (Quickstart.mkState 0 0 chunks0 metadatas0) []
              (chunks, metadatas)) as [new Hnew]; simpl; try lia;
    try assumption.
  - split; [by rewrite app_nil_r |]. split; [by rewrite app_nil_r |].
    constructor.
  - exists new. exact Hnew.
Qed.

(** X7: what one document adds in the quickstart loop: its fragments are
    appended to [chunks] and, in step, one metadata record each to
    [metadatas], carrying the document's source and the indices 0, 1, 2,
    ...; every fragment is non-empty, trimmed, at most [CHUNK_SIZE]
    characters long and a contiguous slice of the document's text. *)
Theorem quickstart_doc_metadata (fuel : nat) (doc : Quickstart.raw_doc)
    (chunks0 : list str) (metadatas0 : list Quickstart.meta)
    (chunks : list str) (metadatas : list Quickstart.meta) :
  Quickstart.chunk_doc fuel doc chunks0 metadatas0 = Some (chunks, metadatas) ->
  exists new : list str,
    chunks = chunks0 ++ new /\
    metadatas
    = metadatas0
      ++ imap (fun k _ => Quickstart.mkMeta (Quickstart.doc_source doc)
                            (Z.of_nat k)) new /\
    Forall (fun frag =>
              frag <> [] /\ strip frag = frag /\
              (len frag <= Quickstart.CHUNK_SIZE)%Z /\
              exists p : nat,
                p + length frag <= length (Quickstart.doc_text doc) /\
                take (length frag) (drop p (Quickstart.doc_text doc)) = frag)
           new.
Proof.
  intros Hrun. destruct (quickstart_doc_added _ _ _ _ _ _ Hrun) as [new Hnew].
  exists new. exact Hnew.
Qed.

Lemma quickstart_doc_metadata_witness :
  exists new : list str,
    [replicate 500 120%N; replicate 200 120%N; replicate 100 120%N]
    = [] ++ new /\
    [Quickstart.mkMeta (py "a.txt") 0; Quickstart.mkMeta (py "a.txt") 1;
     Quickstart.mkMeta (py "a.txt") 2]
    = []
      ++ imap (fun k _ =>
                 Quickstart.mkMeta
                   (Quickstart.doc_source
                      (Quickstart.mkRawDoc (replicate 600 120%N) (py "a.txt")))
                   (Z.of_nat k)) new /\
    Forall (fun frag =>
              frag <> [] /\ strip frag = frag /\
              (len frag <= Quickstart.CHUNK_SIZE)%Z /\
              exists p : nat,
                p + length frag
                <= length (Quickstart.doc_text
                             (Quickstart.mkRawDoc (replicate 600 120%N)
                                (py "a.txt"))) /\
                take (length frag)
                     (drop p (Quickstart.doc_text
                                (Quickstart.mkRawDoc (replicate 600 120%N)
                                   (py "a.txt"))))
                = frag)
           new.
Proof.
  apply (quickstart_doc_metadata 4
           (Quickstart.mkRawDoc (replicate 600 120%N) (py "a.txt")) [] []).
  vm_compute. reflexivity.
Defined.

Lemma Forall2_imap_meta (src : str) (Q : str -> Prop) (new : list str) :
  Forall Q new ->
  forall g : nat -> Z,
    Forall2 (fun frag m => Quickstart.source m = src /\ Q frag) new
            (imap (fun k _ => Quickstart.mkMeta src (g k)) new).
Proof.
  induction 1 as [|x l Hx _ IH]; intros g; simpl; constructor.
  - split; [reflexivity | exact Hx].
  - apply (IH (fun k => g (S k))).
Qed.

Lemma quickstart_docs_pairs (fuel : nat) (all : list Quickstart.raw_doc) :
  forall (raw_docs : list Quickstart.raw_doc)
         (chunks0 : list str) (metadatas0 : list Quickstart.meta)
         (chunks : list str) (metadatas : list Quickstart.meta),
    (forall d, d ∈ raw_docs -> d ∈ all) ->
    Forall2 (fun frag m =>
               exists d, d ∈ all /\
                 Quickstart.source m = Quickstart.doc_source d /\
                 exists p : nat,
                   take (length frag) (drop p (Quickstart.doc_text d)) = frag)
            chunks0 metadatas0 ->
    Quickstart.chunk_docs fuel raw_docs chunks0 metadatas0
    = Some (chunks, metadatas) ->
    Forall2 (fun frag m =>
               exists d, d ∈ all /\
                 Quickstart.source m = Quickstart.doc_source d /\
                 exists p : nat,
                   take (length frag) (drop p (Quickstart.doc_text d)) = frag)
            chunks metadatas.
Proof.
  induction raw_docs as [|d docs IH];
    intros chunks0 metadatas0 chunks metadatas Hsub Hpairs; simpl.
  - intros [= <- <-]. exact Hpairs.
  - destruct (Quickstart.chunk_doc fuel d chunks0 metadatas0)
      as [[c1 m1]|] eqn:Hdoc; [| discriminate].
    apply quickstart_doc_added in Hdoc as (new & -> & -> & Hnew).
    apply IH.
    + intros d' Hd'. apply Hsub. by right.
    + apply Forall2_app; [exact Hpairs |].
      eapply Forall2_impl;
        [apply (Forall2_imap_meta (Quickstart.doc_source d) _ new Hnew) |].
      intros frag m [Hsrc (_ & _ & _ & p & _ & Hp)].
      exists d. split; [apply Hsub; by left |]. split; [exact Hsrc |]. eauto.
Qed.

(** X8: after the quickstart loop over all documents, [chunks] and
    [metadatas] have the same length, and the source recorded beside each
    fragment is the source of a document of the input whose text contains
    that fragment as a contiguous slice. *)
Theorem quickstart_docs_attribution (fuel : nat)
    (raw_docs : list Quickstart.raw_doc)
    (chunks : list str) (metadatas : list Quickstart.meta) :
  Quickstart.chunk_docs fuel raw_docs [] [] = Some (chunks, metadatas) ->
  length chunks = length metadatas /\
  Forall2 (fun frag m =>
             exists d, d ∈ raw_docs /\
               Quickstart.source m = Quickstart.doc_source d /\
               exists p : nat,
                 take (length frag) (drop p (Quickstart.doc_text d)) = frag)
          chunks metadatas.
Proof.
  intros Hrun.
  assert (Hpairs := quickstart_docs_pairs fuel raw_docs raw_docs [] []
                      chunks metadatas (fun d H => H) ltac:(constructor) Hrun).
  split; [exact (Forall2_length _ _ _ Hpairs) | exact Hpairs].
Qed.

Lemma quickstart_docs_attribution_witness :
  length [py "first"; py "second"]
  = length [Quickstart.mkMeta (py "a.txt") 0; Quickstart.mkMeta (py "b.txt") 0] /\
  Forall2 (fun frag m =>
             exists d,
               d ∈ [Quickstart.mkRawDoc (py " first ") (py "a.txt");
                    Quickstart.mkRawDoc (py "second") (py "b.txt")] /\
               Quickstart.source m = Quickstart.doc_source d /\
               exists p : nat,
                 take (length frag) (drop p (Quickstart.doc_text d)) = frag)
          [py "first"; py "second"]
          [Quickstart.mkMeta (py "a.txt") 0; Quickstart.mkMeta (py "b.txt") 0].
Proof.
  apply (quickstart_docs_attribution 7
           [Quickstart.mkRawDoc (py " first ") (py "a.txt");
            Quickstart.mkRawDoc (py "second") (py "b.txt")]).
  vm_compute. reflexivity.
Defined.

Section QuickstartSolid.

Local Open Scope Z_scope.

Variable doc : Quickstart.raw_doc.
Hypothesis Hsolid :
  Forall (fun c => isspace c = false) (Quickstart.doc_text doc).

(** On a text without white space a pass appends its whole window. *)
Lemma quickstart_step_solid (st : Quickstart.state) :
  0 <= Quickstart.start st < len (Quickstart.doc_text doc) ->
  Quickstart.chunk_step doc st
  = let e := Z.min (Quickstart.start st + 500) (len (Quickstart.doc_text doc)) in
    let chunks :=
      Quickstart.chunks st
      ++ [slice (Quickstart.doc_text doc) (Quickstart.start st) e] in
    let metadatas :=
      Quickstart.metadatas st
      ++ [Quickstart.mkMeta (Quickstart.doc_source doc) (Quickstart.idx st)] in
    let start := if e - 100 >? Quickstart.start st then e - 100 else e in
    if start >=? len (Quickstart.doc_text doc) then Break (chunks, metadatas)
    else Continue (Quickstart.mkState start (Quickstart.idx st + 1)
                     chunks metadatas).
Proof.
  intros Hstart. unfold Quickstart.chunk_step, Quickstart.CHUNK_SIZE,
    Quickstart.CHUNK_OVERLAP. cbv zeta.
  set (e := Z.min (Quickstart.start st + 500) (len (Quickstart.doc_text doc))).
  rewrite strip_solid by (by apply slice_Forall).
  assert (Hne : truthy (slice (Quickstart.doc_text doc) (Quickstart.start st) e)
                = true).
  { pose proof (slice_length (Quickstart.doc_text doc) (Quickstart.start st) e
                  ltac:(lia) ltac:(subst e; lia) ltac:(subst e; lia)) as Hl.
    destruct (slice _ _ _); [| reflexivity].
    unfold len in *. simpl in Hl. subst e. lia. }
  rewrite Hne. reflexivity.
Qed.

Lemma slice_to_end {A} (s : list A) (a : Z) :
  0 <= a <= len s -> slice s a (len s) = drop (Z.to_nat a) s.
Proof.
  intros Ha. rewrite slice_inside by lia. apply take_ge.
  rewrite length_drop. unfold len. lia.
Qed.

Lemma quickstart_loop_tail fuel :
  forall st r,
    0 <= Quickstart.start st ->
    Quickstart.start st + 100 < len (Quickstart.doc_text doc) ->
    Quickstart.chunk_loop fuel doc st = Some r ->
    exists (pre : list str) (s : nat),
      fst r
      = Quickstart.chunks st ++ pre
        ++ [drop s (Quickstart.doc_text doc);
            drop (Z.to_nat (len (Quickstart.doc_text doc) - 100))
                 (Quickstart.doc_text doc)] /\
      (s < Z.to_nat (len (Quickstart.doc_text doc) - 100))%nat.
Proof.
  induction fuel as [|fuel IH]; intros st r Hs Hreg; simpl.
  - destruct (Z.ltb_spec (Quickstart.start st) (len (Quickstart.doc_text doc)));
      [discriminate | lia].
  - destruct (Z.ltb_spec (Quickstart.start st) (len (Quickstart.doc_text doc)));
      [| lia].
    rewrite quickstart_step_solid by lia. cbv zeta.
    set (L := len (Quickstart.doc_text doc)) in *.
    destruct (Z.le_gt_cases L (Quickstart.start st + 500)) as [Hend|Hfull].
    + (* the window reaches the end of the text *)
      rewrite Z.min_r by lia.
      destruct (Z.gtb_spec (L - 100) (Quickstart.start st)); [| lia].
      destruct (Z.geb_spec (L - 100) L); [lia |].
      destruct fuel as [|fuel]; simpl.
      * destruct (Z.ltb_spec (L - 100) (len (Quickstart.doc_text doc)));
          [discriminate | subst L; lia].
      * fold L. destruct (Z.ltb_spec (L - 100) L); [| lia].
        rewrite quickstart_step_solid by (simpl; fold L; lia). cbv zeta.
        simpl Quickstart.start. fold L. rewrite Z.min_r by lia.
        destruct (Z.gtb_spec (L - 100) (L - 100)); [lia |].
        destruct (Z.geb_spec L L); [| lia].
        intros [= <-]. simpl.
        exists [], (Z.to_nat (Quickstart.start st)).
        split; [| lia]. subst L.
        rewrite !slice_to_end by lia. rewrite <- app_assoc. reflexivity.
    + (* a full window, short of the end *)
      rewrite Z.min_l by lia.
      destruct (Z.gtb_spec (Quickstart.start st + 500 - 100) (Quickstart.start st));
        [| lia].
      destruct (Z.geb_spec (Quickstart.start st + 500 - 100) L); [lia |].
      intros Hrun. apply IH in Hrun as (pre & s & Hr & Hlt); simpl; try lia.
      simpl in Hr. rewrite <- app_assoc in Hr. simpl in Hr.
      exists (slice (Quickstart.doc_text doc) (Quickstart.start st)
                (Quickstart.start st + 500) :: pre), s.
      split; [exact Hr | exact Hlt].
Qed.

End QuickstartSolid.

(** X9: on a text without white space and longer than [CHUNK_OVERLAP]
    (100) characters, the quickstart loop always ends with a redundant
    fragment: the fragment before the last already runs to the end of the
    text, and the last fragment is the last 100 characters once more. *)
Theorem quickstart_redundant_tail (fuel : nat) (doc : Quickstart.raw_doc)
    (chunks0 : list str) (metadatas0 : list Quickstart.meta)
    (chunks : list str) (metadatas : list Quickstart.meta) :
  Forall (fun c => isspace c = false) (Quickstart.doc_text doc) ->
  (Quickstart.CHUNK_OVERLAP < len (Quickstart.doc_text doc))%Z ->
  Quickstart.chunk_doc fuel doc chunks0 metadatas0 = Some (chunks, metadatas) ->
  exists (pre : list str) (s : nat),
    chunks
    = chunks0 ++ pre
      ++ [drop s (Quickstart.doc_text doc);
          drop (length (Quickstart.doc_text doc) - 100)
               (Quickstart.doc_text doc)] /\
    s < length (Quickstart.doc_text doc) - 100.
Proof.
  intros Hsolid Hlong Hrun. unfold Quickstart.chunk_doc in Hrun.
  unfold Quickstart.CHUNK_OVERLAP in Hlong.
  apply (quickstart_loop_tail doc Hsolid) in Hrun as (pre & s & Hr & Hs);
    simpl; try lia.
  simpl in Hr.
  replace (Z.to_nat (len (Quickstart.doc_text doc) - 100))
    with (length (Quickstart.doc_text doc) - 100)%nat in *
    by (unfold len; lia).
  eauto.
Qed.

Lemma quickstart_redundant_tail_witness :
  exists (pre : list str) (s : nat),
    [replicate 300 120%N; replicate 100 120%N]
    = [] ++ pre
      ++ [drop s (Quickstart.doc_text
                    (Quickstart.mkRawDoc (replicate 300 120%N) (py "a.txt")));
          drop (length (Quickstart.doc_text
                          (Quickstart.mkRawDoc (replicate 300 120%N)
                             (py "a.txt"))) - 100)
               (Quickstart.doc_text
                  (Quickstart.mkRawDoc (replicate 300 120%N) (py "a.txt")))] /\
    s < length (Quickstart.doc_text
                  (Quickstart.mkRawDoc (replicate 300 120%N) (py "a.txt")))
        - 100.
Proof.
  apply (quickstart_redundant_tail 3
           (Quickstart.mkRawDoc (replicate 300 120%N) (py "a.txt")) [] []
           [replicate 300 120%N; replicate 100 120%N]
           [Quickstart.mkMeta (py "a.txt") 0; Quickstart.mkMeta (py "a.txt") 1]).
  - apply (Forall_replicate (fun c => isspace c = false) 300 120%N).
    reflexivity.
  - vm_compute. reflexivity.
  - vm_compute. reflexivity.
Defined.

(** ** More on the embedding adapter *)

(** X10: [embed_text] and [embed_documents] stop at the first batch the
    provider fails on: the batches before it have been sent, the failing
    batch is the last one sent, no later batch goes out, and the
    provider's exception is the outcome (the vectors of the earlier batches
    are dropped). *)
Theorem embed_stops_at_failing_batch {float : Type}
    (create : str -> list str -> result (list (list float)))
    (model : str) (texts : list str) (log : list (list str))
    (pre : list (list str)) (b : list str) (post : list (list str))
    (e : exn) :
  planned_batches texts = pre ++ b :: post ->
  Forall (fun b' => exists vs, create model b' = Ok vs) pre ->
  create model b = Raise e ->
  embed_text create (ManyTexts texts) model log
  = (log ++ pre ++ [b], Raise e) /\
  (model = EMBED_MODEL ->
   embed_documents create texts log = (log ++ pre ++ [b], Raise e)).
Proof.
  intros Hplan Hpre Hb.
  assert (Htext : embed_text create (ManyTexts texts) model log
                  = (log ++ pre ++ [b], Raise e)).
  { rewrite embed_text_many_as_plan, Hplan.
    rewrite (for_in_batches_fail create model pre b post e Hpre Hb).
    reflexivity. }
  split; [exact Htext |]. intros ->.
  rewrite embed_documents_as_embed_text in Htext.
  destruct (embed_documents create texts log) as [log' [vs|e']]; congruence.
Qed.

Lemma embed_stops_at_failing_batch_witness :
  embed_text
    (fun _ batch =>
       if bool_decide (py "b" ∈ batch)
       then Raise (OtherError (py "rate limit"))
       else Ok (map (fun t : str => [length t]) batch))
    (ManyTexts (replicate 10 (py "a") ++ replicate 10 (py "b")
                ++ replicate 5 (py "c")))
    EMBED_MODEL []
  = ([] ++ [replicate 10 (py "a")] ++ [replicate 10 (py "b")],
     Raise (OtherError (py "rate limit"))) /\
  (EMBED_MODEL = EMBED_MODEL ->
   embed_documents
     (fun _ batch =>
        if bool_decide (py "b" ∈ batch)
        then Raise (OtherError (py "rate limit"))
        else Ok (map (fun t : str => [length t]) batch))
     (replicate 10 (py "a") ++ replicate 10 (py "b") ++ replicate 5 (py "c"))
     []
   = ([] ++ [replicate 10 (py "a")] ++ [replicate 10 (py "b")],
      Raise (OtherError (py "rate limit")))).
Proof.
  apply (embed_stops_at_failing_batch
           (fun _ batch =>
              if bool_decide (py "b" ∈ batch)
              then Raise (OtherError (py "rate limit"))
              else Ok (map (fun t : str => [length t]) batch))
           EMBED_MODEL
           (replicate 10 (py "a") ++ replicate 10 (py "b")
            ++ replicate 5 (py "c"))
           [] [replicate 10 (py "a")] (replicate 10 (py "b"))
           [replicate 5 (py "c")]).
  - vm_compute. reflexivity.
  - constructor; [| constructor]. eexists. vm_compute. reflexivity.
  - vm_compute. reflexivity.
Defined.

(** X11: when [embed_text] on a list, or [embed_documents], returns, the
    requests it has sent are exactly the batches [texts[10k : 10k+10]] in
    order, and there are [max(1, ceil(len(texts) / 10))] of them: one
    request even for an empty list. *)
Theorem embed_batches_sent {float : Type}
    (create : str -> list str -> result (list (list float)))
    (model : str) (texts : list str) (log log' : list (list str))
    (vectors : list (list float)) :
  embed_text create (ManyTexts texts) model log
    = (log', Ok (ManyVectors vectors)) \/
  embed_documents create texts log = (log', Ok vectors) ->
  exists batches,
    log' = log ++ batches /\
    (forall (k : nat) b,
       batches !! k = Some b -> b = take 10 (drop (10 * k) texts)) /\
    Z.of_nat (length batches) = Z.max 1 ((len texts + 9) / 10).
Proof.
  intros Hrun.
  assert (exists m, embed_text create (ManyTexts texts) m log
                    = (log', Ok (ManyVectors vectors))) as [m Hm].
  { destruct Hrun as [H|H]; [eauto |]. exists EMBED_MODEL.
    rewrite embed_documents_as_embed_text, H. reflexivity. }
  rewrite embed_text_many_as_plan in Hm.
  destruct (for_in _ _ _ _) as [l [vs|e]] eqn:Hfor; [| discriminate].
  injection Hm as -> ->.
  apply for_in_batches_ok in Hfor as [-> _].
  exists (planned_batches texts). split; [reflexivity |].
  split; [apply planned_batches_lookup | apply planned_batches_length].
Qed.

Lemma embed_batches_sent_witness :
  exists batches,
    [[]] = [] ++ batches /\
    (forall (k : nat) b,
       batches !! k = Some b -> b = take 10 (drop (10 * k) ([] : list str))) /\
    Z.of_nat (length batches) = Z.max 1 ((len ([] : list str) + 9) / 10).
Proof.
  apply (embed_batches_sent (float := nat) (fun _ _ => Ok []) EMBED_MODEL
           [] [] [[]] []).
  right. vm_compute. reflexivity.
Defined.

(** X12: on a single string [embed_text] with the default model and
    [embed_query] do the same: one request holding just that text, the
    first vector of the answer as the value, [IndexError] when the answer
    holds no vector, and the provider's exception when it fails. *)
Theorem embed_query_agrees {float : Type}
    (create : str -> list str -> result (list (list float)))
    (text : str) (log : list (list str)) :
  embed_query create text log
  = (log ++ [[text]],
     match create EMBED_MODEL [text] with
     | Ok (v :: _) => Ok v
     | Ok [] => Raise (IndexError (py "list index out of range"))
     | Raise e => Raise e
     end) /\
  embed_text create (OneText text) EMBED_MODEL log
  = (log ++ [[text]],
     match snd (embed_query create text log) with
     | Ok v => Ok (OneVector v)
     | Raise e => Raise e
     end).
Proof.
  unfold embed_query, embed_text, io_bind, embeddings_create, io_ret, io_raise.
  simpl. destruct (create EMBED_MODEL [text]) as [[|v vs]|e]; split; reflexivity.
Qed.

(** ** More on the extraction functions *)

Section ExtractorMore.

Context {dataframe bytes : Type}.
Variable path_exists : str -> bool.
Variable path_ext : str -> str.
Variable pdf_pages : str -> result (list (result (option str))).
Variable read_excel : str -> result (list (str * bool * result str)).
Variable read_text : str -> result str.
Variable strip_markdown : str -> result str.
Variable docx_document : str -> result (list str * list (list (list str))).
Variable read_csv : str -> option str -> result dataframe.
Variable to_string : dataframe -> result str.
Variable read_bytes : str -> result bytes.
Variable chardet_detect : bytes -> result (option str).

(** What a readable page adds to the text of a PDF. *)
Let page_line (page_text : option str) : str :=
  match page_text with
  | Some (c :: t) => (c :: t) ++ LF
  | _ => []
  end.

Lemma pdf_pages_fold_ok (texts : list (option str)) :
  forall acc : str,
    rfold (fun (page : result (option str)) (text_content : str) =>
             rbind page (fun page_text =>
               match page_text with
               | Some t =>
                   if truthy t then Ok (text_content ++ t ++ LF)
                   else Ok text_content
               | None => Ok text_content
               end))
          (map Ok texts) acc
    = Ok (acc ++ concat (map page_line texts)).
Proof.
  induction texts as [|t texts IH]; intros acc; simpl.
  - by rewrite app_nil_r.
  - destruct t as [[|c t]|]; simpl; rewrite IH; try reflexivity.
    rewrite <- (app_assoc acc). reflexivity.
Qed.

Lemma pdf_pages_fold_fail (good : list (option str)) (e : exn)
    (rest : list (result (option str))) :
  forall acc : str,
    rfold (fun (page : result (option str)) (text_content : str) =>
             rbind page (fun page_text =>
               match page_text with
               | Some t =>
                   if truthy t then Ok (text_content ++ t ++ LF)
                   else Ok text_content
               | None => Ok text_content
               end))
          (map Ok good ++ Raise e :: rest) acc
    = Raise e.
Proof.
  induction good as [|t good IH]; intros acc; simpl; [reflexivity |].
  destruct t as [[|c t]|]; simpl; apply IH.
Qed.

Lemma csv_try_encodings_skips (path : str) (pre rest : list str) :
  Forall (fun enc =>
            exists msg,
              read_csv path (Some enc) = Raise (UnicodeDecodeError msg) \/
              read_csv path (Some enc) = Raise (ParserError msg)) pre ->
  csv_try_encodings read_csv path (pre ++ rest)
  = csv_try_encodings read_csv path rest.
Proof.
  induction 1 as [|enc pre [msg [H|H]] _ IH]; simpl; [reflexivity | |];
    rewrite H; exact IH.
Qed.

End ExtractorMore.




(** X14: the text each extraction function returns is trimmed: it neither
    starts nor ends with white space, whether it is document text or an
    error text. *)
Theorem extraction_output_trimmed {dataframe bytes : Type}
    (path_exists : str -> bool)
    (pdf_pages : str -> result (list (result (option str))))
    (read_excel : str -> result (list (str * bool * result str)))
    (read_text : str -> result str) (strip_markdown : str -> result str)
    (docx_document : str -> result (list str * list (list (list str))))
    (read_csv : str -> option str -> result dataframe)
    (to_string : dataframe -> result str)
    (read_bytes : str -> result bytes)
    (chardet_detect : bytes -> result (option str))
    (path : str) :
  strip (extract_pdf path_exists pdf_pages path)
  = extract_pdf path_exists pdf_pages path /\
  strip (extract_excel path_exists read_excel path)
  = extract_excel path_exists read_excel path /\
  strip (extract_markdown path_exists read_text strip_markdown path)
  = extract_markdown path_exists read_text strip_markdown path /\
  strip (extract_word path_exists docx_document path)
  = extract_word path_exists docx_document path /\
  strip (extract_csv path_exists read_csv to_string read_bytes chardet_detect
           path)
  = extract_csv path_exists read_csv to_string read_bytes chardet_detect path.
Proof.
  unfold extract_pdf, extract_excel, extract_markdown, extract_word,
    extract_csv.
  repeat split; apply strip_idemp.
Qed.

(** X15: one page of a PDF that cannot be read turns the whole document
    into an error text: the text of the pages before it is dropped and the
    pages after it are not looked at. *)
Theorem extract_pdf_failing_page
    (path_exists : str -> bool)
    (pdf_pages : str -> result (list (result (option str))))
    (path : str) (good : list (option str)) (e : exn)
    (rest : list (result (option str))) :
  path_exists path = true ->
  pdf_pages path = Ok (map Ok good ++ Raise e :: rest) ->
  extract_pdf path_exists pdf_pages path
  = strip (error_text (py "PDF") path e) /\
  ERROR_TAG `prefix_of` extract_pdf path_exists pdf_pages path.
Proof.
  intros Hex Hpages.
  assert (Htry : pdf_try path_exists pdf_pages path = Raise e).
  { unfold pdf_try. rewrite Hex, Hpages. simpl.
    apply pdf_pages_fold_fail. }
  unfold extract_pdf. rewrite Htry. split; [reflexivity |].
  apply strip_error_text.
Qed.

Lemma extract_pdf_failing_page_witness :
  extract_pdf (fun _ => true)
    (fun _ => Ok (map Ok [Some (py "page 1"); None]
                  ++ Raise (OtherError (py "bad page"))
                  :: [Ok (Some (py "page 4"))]))
    (py "broken.pdf")
  = strip (error_text (py "PDF") (py "broken.pdf")
             (OtherError (py "bad page"))) /\
  ERROR_TAG `prefix_of`
    extract_pdf (fun _ => true)
      (fun _ => Ok (map Ok [Some (py "page 1"); None]
                    ++ Raise (OtherError (py "bad page"))
                    :: [Ok (Some (py "page 4"))]))
      (py "broken.pdf").
Proof.
  apply (extract_pdf_failing_page (fun _ => true)
           (fun _ => Ok (map Ok [Some (py "page 1"); None]
                         ++ Raise (OtherError (py "bad page"))
                         :: [Ok (Some (py "page 4"))]))
           (py "broken.pdf") [Some (py "page 1"); None]
           (OtherError (py "bad page")) [Ok (Some (py "page 4"))]);
    reflexivity.
Defined.

(** X16: when the file exists and every page can be read, [extract_pdf]
    returns the texts of the pages in order, a line feed after each, pages
    without text left out, the whole trimmed; a PDF without any text gives
    the empty string, not an error. *)
Theorem extract_pdf_readable
    (path_exists : str -> bool)
    (pdf_pages : str -> result (list (result (option str))))
    (path : str) (texts : list (option str)) :
  path_exists path = true ->
  pdf_pages path = Ok (map Ok texts) ->
  extract_pdf path_exists pdf_pages path
  = strip (concat (map (fun page_text : option str =>
                          match page_text with
                          | Some (c :: t) => (c :: t) ++ LF
                          | _ => []
                          end) texts)) /\
  (Forall (fun page_text => page_text = None \/ page_text = Some []) texts ->
   extract_pdf path_exists pdf_pages path = []).
Proof.
  intros Hex Hpages.
  assert (Htext :
            extract_pdf path_exists pdf_pages path
            = strip (concat (map (fun page_text : option str =>
                                    match page_text with
                                    | Some (c :: t) => (c :: t) ++ LF
                                    | _ => []
                                    end) texts))).
  { unfold extract_pdf, pdf_try. rewrite Hex, Hpages. simpl.
    rewrite pdf_pages_fold_ok. reflexivity. }
  split; [exact Htext |]. intros Hnone. rewrite Htext.
  clear Hpages Htext.
  induction Hnone as [|t l Ht _ IH]; [reflexivity |].
  destruct Ht as [-> | ->]; exact IH.
Qed.

Lemma extract_pdf_readable_witness :
  extract_pdf (fun _ => true)
    (fun _ => Ok (map Ok [Some (py "  page 1"); None; Some []; Some (py "page 4 ")]))
    (py "manual.pdf")
  = strip (concat (map (fun page_text : option str =>
                          match page_text with
                          | Some (c :: t) => (c :: t) ++ LF
                          | _ => []
                          end)
                       [Some (py "  page 1"); None; Some []; Some (py "page 4 ")])) /\
  (Forall (fun page_text => page_text = None \/ page_text = Some [])
          [Some (py "  page 1"); None; Some []; Some (py "page 4 ")] ->
   extract_pdf (fun _ => true)
     (fun _ => Ok (map Ok [Some (py "  page 1"); None; Some []; Some (py "page 4 ")]))
     (py "manual.pdf") = []).
Proof.
  apply (extract_pdf_readable (fun _ => true)
           (fun _ => Ok (map Ok [Some (py "  page 1"); None; Some [];
                                 Some (py "page 4 ")]))
           (py "manual.pdf")
           [Some (py "  page 1"); None; Some []; Some (py "page 4 ")]);
    reflexivity.
Defined.

(** The text of the PDF of the witness. *)
Example extract_pdf_four_pages :
  extract_pdf (fun _ => true)
    (fun _ => Ok [Ok (Some (py "  page 1")); Ok None; Ok (Some []);
                  Ok (Some (py "page 4 "))])
    (py "manual.pdf")
  = py "page 1" ++ LF ++ py "page 4".
Proof. vm_compute. reflexivity. Qed.

(** Passes that leave the state alone leave it alone together. *)
Lemma rfold_skip {A S} (body : A -> S -> result S) (skip : A -> Prop)
    (xs : list A) (s : S) :
  (forall x s', skip x -> body x s' = Ok s') ->
  Forall skip xs -> rfold body xs s = Ok s.
Proof.
  intros Hbody. induction 1 as [|x xs Hx _ IH]; [reflexivity |].
  cbn [rfold]. rewrite (Hbody x s Hx). exact IH.
Qed.

(** X17: a workbook that exists and holds no sheet with data (no sheet at
    all, or empty sheets only) yields the notice
    "[INFO] Excel文件中没有数据内容" as its text, neither the empty string nor an
    error text. *)
Theorem extract_excel_no_data
    (path_exists : str -> bool)
    (read_excel : str -> result (list (str * bool * result str)))
    (path : str) (sheets : list (str * bool * result str)) :
  path_exists path = true ->
  read_excel path = Ok sheets ->
  Forall (fun '(_, empty, _) => empty = true) sheets ->
  extract_excel path_exists read_excel path
  = py "[INFO] Excel文件中没有数据内容".
Proof.
  intros Hex Hsheets Hempty.
  unfold extract_excel, excel_try. rewrite Hex, Hsheets. simpl negb.
  cbv iota. unfold rbind at 1.
  match goal with
  | |- context [rfold ?f sheets ?s] =>
      assert (Hfold : rfold f sheets s = Ok s)
  end.
  { apply (rfold_skip _ (fun '(_, empty, _) => empty = true));
      [| exact Hempty].
    intros [[name empty] rendered] [text_content sheet_count] Hx.
    cbv beta iota in *. subst empty. reflexivity. }
  rewrite Hfold. vm_compute. reflexivity.
Qed.

Lemma extract_excel_no_data_witness :
  extract_excel (fun _ => true)
    (fun _ => Ok [(py "Sheet1", true, Ok (py "unused"));
                  (py "Sheet2", true, Raise (OtherError (py "unused")))])
    (py "empty.xlsx")
  = py "[INFO] Excel文件中没有数据内容".
Proof.
  apply (extract_excel_no_data (fun _ => true)
           (fun _ => Ok [(py "Sheet1", true, Ok (py "unused"));
                         (py "Sheet2", true, Raise (OtherError (py "unused")))])
           (py "empty.xlsx")
           [(py "Sheet1", true, Ok (py "unused"));
            (py "Sheet2", true, Raise (OtherError (py "unused")))]);
    [reflexivity | reflexivity | repeat constructor].
Defined.

(** X18: [extract_csv] tries utf-8, gbk, gb2312 and latin-1 in this order
    and takes the first encoding that [read_csv] accepts: encodings that
    fail with a decoding or parsing error are passed over, and the table
    read is rendered (or the rendering error returned as error text).  Any
    other exception of [read_csv] ends the attempts at once and comes back
    as error text, the later encodings and the detector untried. *)
Theorem extract_csv_encoding_order {dataframe bytes : Type}
    (path_exists : str -> bool)
    (read_csv : str -> option str -> result dataframe)
    (to_string : dataframe -> result str)
    (read_bytes : str -> result bytes)
    (chardet_detect : bytes -> result (option str))
    (path : str) (pre : list str) (enc : str) (post : list str) :
  path_exists path = true ->
  [py "utf-8"; py "gbk"; py "gb2312"; py "latin-1"] = pre ++ enc :: post ->
  Forall (fun enc' =>
            exists msg,
              read_csv path (Some enc') = Raise (UnicodeDecodeError msg) \/
              read_csv path (Some enc') = Raise (ParserError msg)) pre ->
  (forall df,
     read_csv path (Some enc) = Ok df ->
     extract_csv path_exists read_csv to_string read_bytes chardet_detect path
     = strip (match to_string df with
              | Ok text_content => text_content
              | Raise e => error_text (py "CSV") path e
              end)) /\
  (forall e,
     read_csv path (Some enc) = Raise e ->
     (forall msg, e <> UnicodeDecodeError msg) ->
     (forall msg, e <> ParserError msg) ->
     extract_csv path_exists read_csv to_string read_bytes chardet_detect path
     = strip (error_text (py "CSV") path e)).
Proof.
  intros Hex Hdec Hpre.
  assert (Htry : forall r,
            csv_try_encodings read_csv path (enc :: post) = r ->
            csv_try path_exists read_csv to_string read_bytes chardet_detect
              path
            = rbind r (fun df =>
                rbind (match df with
                       | Some df => Ok df
                       | None =>
                           rbind (read_bytes path) (fun raw_data =>
                             rbind (chardet_detect raw_data) (fun encoding =>
                               read_csv path encoding))
                       end) to_string)).
  { intros r <-. unfold csv_try. rewrite Hex. simpl negb. cbv iota zeta.
    rewrite Hdec, (csv_try_encodings_skips read_csv path pre (enc :: post) Hpre).
    reflexivity. }
  split.
  - intros df Hdf. unfold extract_csv.
    rewrite (Htry (Ok (Some df))); [| simpl; by rewrite Hdf].
    simpl. destruct (to_string df); reflexivity.
  - intros e He Hud Hpe. unfold extract_csv.
    rewrite (Htry (Raise e)); [reflexivity |].
    simpl. rewrite He. destruct e; try reflexivity.
    + exfalso. by apply (Hud msg).
    + exfalso. by apply (Hpe msg).
Qed.

Lemma extract_csv_encoding_order_witness :
  (forall df,
     (if bool_decide (Some (py "gbk") = Some (py "utf-8"))
      then Raise (UnicodeDecodeError (py "invalid start byte"))
      else Ok (py "name,age")) = Ok df ->
     extract_csv (fun _ => true)
       (fun _ enc =>
          if bool_decide (enc = Some (py "utf-8"))
          then Raise (UnicodeDecodeError (py "invalid start byte"))
          else Ok (py "name,age"))
       (fun df : str => Ok df) (fun _ => Ok tt) (fun _ : unit => Ok None)
       (py "people.csv")
     = strip (match Ok df with
              | Ok text_content => text_content
              | Raise e => error_text (py "CSV") (py "people.csv") e
              end)) /\
  (forall e,
     (if bool_decide (Some (py "gbk") = Some (py "utf-8"))
      then Raise (UnicodeDecodeError (py "invalid start byte"))
      else Ok (py "name,age")) = Raise e ->
     (forall msg, e <> UnicodeDecodeError msg) ->
     (forall msg, e <> ParserError msg) ->
     extract_csv (fun _ => true)
       (fun _ enc =>
          if bool_decide (enc = Some (py "utf-8"))
          then Raise (UnicodeDecodeError (py "invalid start byte"))
          else Ok (py "name,age"))
       (fun df : str => Ok df) (fun _ => Ok tt) (fun _ : unit => Ok None)
       (py "people.csv")
     = strip (error_text (py "CSV") (py "people.csv") e)).
Proof.
  apply (extract_csv_encoding_order (dataframe := str) (bytes := unit)
           (fun _ => true)
           (fun _ enc =>
              if bool_decide (enc = Some (py "utf-8"))
              then Raise (UnicodeDecodeError (py "invalid start byte"))
              else Ok (py "name,age"))
           (fun df : str => Ok df) (fun _ => Ok tt) (fun _ : unit => Ok None)
           (py "people.csv") [py "utf-8"] (py "gbk")
           [py "gb2312"; py "latin-1"]).
  - reflexivity.
  - reflexivity.
  - constructor; [| constructor]. eexists. left. vm_compute. reflexivity.
Defined.

(** X19: when all four encodings fail with a decoding or parsing error,
    [extract_csv] reads the raw bytes, asks the detector for the encoding
    and reads the file once more with it; whatever fails on that path comes
    back as error text. *)
Theorem extract_csv_detector_fallback {dataframe bytes : Type}
    (path_exists : str -> bool)
    (read_csv : str -> option str -> result dataframe)
    (to_string : dataframe -> result str)
    (read_bytes : str -> result bytes)
    (chardet_detect : bytes -> result (option str))
    (path : str) :
  path_exists path = true ->
  Forall (fun enc' =>
            exists msg,
              read_csv path (Some enc') = Raise (UnicodeDecodeError msg) \/
              read_csv path (Some enc') = Raise (ParserError msg))
         [py "utf-8"; py "gbk"; py "gb2312"; py "latin-1"] ->
  extract_csv path_exists read_csv to_string read_bytes chardet_detect path
  = strip (match rbind (read_bytes path) (fun raw_data =>
                   rbind (chardet_detect raw_data) (fun encoding =>
                     rbind (read_csv path encoding) to_string)) with
           | Ok text_content => text_content
           | Raise e => error_text (py "CSV") path e
           end).
Proof.
  intros Hex Hall. unfold extract_csv, csv_try. rewrite Hex. simpl negb.
  cbv iota zeta.
  rewrite <- (app_nil_r [py "utf-8"; py "gbk"; py "gb2312"; py "latin-1"]).
  rewrite (csv_try_encodings_skips read_csv path _ [] Hall). simpl.
  destruct (read_bytes path) as [raw|e]; simpl; [| reflexivity].
  destruct (chardet_detect raw) as [encoding|e]; reflexivity.
Qed.

Lemma extract_csv_detector_fallback_witness :
  extract_csv (fun _ => true)
    (fun _ enc =>
       match enc with
       | Some _ => Raise (UnicodeDecodeError (py "invalid start byte"))
       | None => Ok (py "name,age")
       end)
    (fun df : str => Ok df) (fun _ => Ok tt) (fun _ : unit => Ok None)
    (py "people.csv")
  = strip (match rbind (Ok tt) (fun raw_data : unit =>
                   rbind (Ok None) (fun encoding : option str =>
                     rbind (match encoding with
                            | Some _ =>
                                Raise (UnicodeDecodeError
                                         (py "invalid start byte"))
                            | None => Ok (py "name,age")
                            end) (fun df : str => Ok df))) with
           | Ok text_content => text_content
           | Raise e => error_text (py "CSV") (py "people.csv") e
           end).
Proof.
  apply (extract_csv_detector_fallback (dataframe := str) (bytes := unit)
           (fun _ => true)
           (fun _ enc =>
              match enc with
              | Some _ => Raise (UnicodeDecodeError (py "invalid start byte"))
              | None => Ok (py "name,age")
              end)
           (fun df : str => Ok df) (fun _ => Ok tt) (fun _ : unit => Ok None)
           (py "people.csv")).
  - reflexivity.
  - repeat (constructor; [eexists; left; reflexivity |]). constructor.
Defined.

(** ** The query function of the quickstart *)

Lemma join_lookup_occurs (sep : str) (parts : list str) (k : nat) (b : str) :
  parts !! k = Some b -> occurs_in b (join sep parts).
Proof.
  revert k. induction parts as [|p parts IH]; intros k Hk; [discriminate |].
  destruct k as [|k].
  - injection Hk as ->. destruct parts as [|q parts].
    + exists [], []. simpl. by rewrite app_nil_r.
    + apply occurs_in_here.
  - simpl in Hk. destruct parts as [|q parts]; [discriminate |].
    change (join sep (p :: q :: parts))
      with (p ++ sep ++ join sep (q :: parts)).
    do 2 apply occurs_in_app_r. by apply (IH k).
Qed.

(** The label of fragment [i] from [src], as the prompts write it. *)
Lemma part_label (i : nat) (src text : str) :
  part i src text
  = (py "[片段 " ++ str_of_nat i ++ py " | 来源: " ++ src ++ py "]")
    ++ LF ++ text ++ LF.
Proof. unfold part. by rewrite <- !app_assoc. Qed.

Section RagQueryFacts.

Context {completion : Type}.
Variable retriever : str -> result (list doc).
Variable completions_create : str -> str -> bool -> result completion.
Variable message_content : completion -> result str.
Variables (query model : str) (log : list (str * str)).
Variable retriever_instance : option (str -> result (list doc)).

(** The retriever the call uses. *)
Let invoke : str -> result (list doc) :=
  match retriever_instance with
  | None => retriever
  | Some r => r
  end.

Let run : list (str * str) * Quickstart.rag_result completion :=
  Quickstart.rag_query retriever completions_create message_content
    query retriever_instance model log.

Lemma rag_query_retrieval_failed (e : exn) :
  invoke query = Raise e ->
  run = (log,
         Quickstart.mkRagResult completion
           (OnlyLLM.Text (py "查询失败: " ++ exn_str e)) []).
Proof.
  subst run invoke. unfold Quickstart.rag_query. cbv zeta.
  intros ->. reflexivity.
Qed.

Lemma rag_query_nothing_retrieved :
  invoke query = Ok [] ->
  run = (log,
         Quickstart.mkRagResult completion
           (OnlyLLM.Text (py "未检索到相关文档，无法回答。")) []).
Proof.
  subst run invoke. unfold Quickstart.rag_query. cbv zeta.
  intros ->. reflexivity.
Qed.

Lemma rag_query_retrieved (d : doc) (docs : list doc) :
  invoke query = Ok (d :: docs) ->
  run
  = (log ++ [(model, build_prompt query (d :: docs))],
     match completions_create model (build_prompt query (d :: docs)) false with
     | Raise e =>
         Quickstart.mkRagResult completion
           (OnlyLLM.Text (py "查询失败: " ++ exn_str e)) []
     | Ok c =>
         Quickstart.mkRagResult completion
           (OnlyLLM.Text
              (match message_content c with
               | Ok content => content
               | Raise _ => py "fail to response"
               end))
           (map (fun '(i, d) => doc_source d ++ py " 片段 " ++ str_of_nat i)
                (enumerate 1 (d :: docs)))
     end).
Proof.
  subst run invoke. unfold Quickstart.rag_query. cbv zeta.
  intros ->. cbn [negb truthy]. cbv iota. unfold OnlyLLM.chat_qwen.
  destruct (completions_create model _ false) as [c|e]; [| reflexivity].
  destruct (message_content c); reflexivity.
Qed.

End RagQueryFacts.

(** X20: [rag_query] asks the model only when retrieval returned at least
    one document, and lists sources only when, in addition, the completion
    request succeeded: the request log grows exactly when the retriever
    answers with a non-empty list, and the returned [sources] are non-empty
    exactly when moreover [completions.create] returned for the prompt
    [build_prompt query docs]. *)
Theorem rag_query_sources_iff {completion : Type}
    (retriever : str -> result (list doc))
    (completions_create : str -> str -> bool -> result completion)
    (message_content : completion -> result str)
    (query model : str) (log : list (str * str))
    (retriever_instance : option (str -> result (list doc))) :
  let run :=
    Quickstart.rag_query retriever completions_create message_content
      query retriever_instance model log in
  (fst run <> log <->
   exists d docs, default retriever retriever_instance query = Ok (d :: docs))
  /\ (Quickstart.sources (snd run) <> [] <->
      exists d docs c,
        default retriever retriever_instance query = Ok (d :: docs)
        /\ completions_create model (build_prompt query (d :: docs)) false
           = Ok c).
Proof.
  intros run.
  destruct (default retriever retriever_instance query) as [[|d docs]|e] eqn:Hq.
  - pose proof (rag_query_nothing_retrieved retriever completions_create
                  message_content query model log retriever_instance Hq) as Hrun.
    fold run in Hrun. rewrite Hrun. cbn [fst snd Quickstart.sources].
    split; (split; [intros H; by destruct H |]).
    + intros (? & ? & [=]).
    + intros (? & ? & ? & [=] & _).
  - pose proof (rag_query_retrieved retriever completions_create
                  message_content query model log retriever_instance
                  d docs Hq) as Hrun.
    fold run in Hrun. rewrite Hrun. cbn [fst snd]. split.
    + split; [intros _; by exists d, docs |].
      intros _ Heq. apply (f_equal length) in Heq.
      rewrite length_app in Heq. simpl in Heq. lia.
    + destruct (completions_create model (build_prompt query (d :: docs)) false)
        as [c|e] eqn:Hc; cbn [Quickstart.sources].
      * split; [intros _; exists d, docs, c; by split |].
        intros _. discriminate.
      * split; [intros H; by destruct H |].
        intros (d' & docs' & c & [= <- <-] & Hc'). congruence.
  - pose proof (rag_query_retrieval_failed retriever completions_create
                  message_content query model log retriever_instance e Hq)
      as Hrun.
    fold run in Hrun. rewrite Hrun. cbn [fst snd Quickstart.sources].
    split; (split; [intros H; by destruct H |]).
    + intros (? & ? & [=]).
    + intros (? & ? & ? & [=] & _).
Qed.

(** X21: When retrieval returns documents and the completion request
    succeeds, [rag_query] sends exactly one request, the model name with
    the prompt [build_prompt query docs], and returns one source line per
    document: the k-th line is the document's source followed by the
    fragment number [k + 1], the same source and number as in the label of
    the k-th fragment of the prompt.  The answer is the message content,
    or the text "fail to response" when the content cannot be read; the
    sources are listed in both cases. *)
Theorem rag_query_sources_match_prompt {completion : Type}
    (retriever : str -> result (list doc))
    (completions_create : str -> str -> bool -> result completion)
    (message_content : completion -> result str)
    (query model : str) (log : list (str * str))
    (retriever_instance : option (str -> result (list doc)))
    (docs : list doc) (c : completion) (k : nat) (d : doc) :
  default retriever retriever_instance query = Ok docs ->
  docs !! k = Some d ->
  completions_create model (build_prompt query docs) false = Ok c ->
  let run :=
    Quickstart.rag_query retriever completions_create message_content
      query retriever_instance model log in
  fst run = log ++ [(model, build_prompt query docs)]
  /\ length (Quickstart.sources (snd run)) = length docs
  /\ Quickstart.sources (snd run) !! k
     = Some (doc_source d ++ py " 片段 " ++ str_of_nat (S k))
  /\ occurs_in
       (py "[片段 " ++ str_of_nat (S k) ++ py " | 来源: " ++ doc_source d
        ++ py "]")
       (build_prompt query docs)
  /\ Quickstart.answer (snd run)
     = OnlyLLM.Text (match message_content c with
                     | Ok content => content
                     | Raise _ => py "fail to response"
                     end).
Proof.
  intros Hq Hk Hc run.
  destruct docs as [|d0 docs]; [discriminate |].
  pose proof (rag_query_retrieved retriever completions_create
                message_content query model log retriever_instance
                d0 docs Hq) as Hrun.
  fold run in Hrun. rewrite Hrun, Hc.
  cbn [fst snd Quickstart.sources Quickstart.answer].
  split; [reflexivity |].
  split; [by rewrite length_map, enumerate_length |].
  split.
  - rewrite list_lookup_fmap, enumerate_lookup, Hk. reflexivity.
  - split; [| reflexivity].
    rewrite build_prompt_cons.
    repeat match goal with
           | |- occurs_in _ (?a ++ _) =>
               lazymatch a with
               | join _ _ => fail
               | _ => apply occurs_in_app_r
               end
           end.
    apply occurs_in_app_l.
    pose proof (parts_lookup doc_page_text (d0 :: docs) k d Hk) as Hpart.
    apply (join_lookup_occurs LF) in Hpart.
    destruct Hpart as (pre & post & Hpart).
    exists pre, (LF ++ doc_page_text d ++ LF ++ post).
    rewrite Hpart, part_label. by rewrite <- !app_assoc.
Qed.

Lemma rag_query_sources_match_prompt_witness :
  let run :=
    Quickstart.rag_query (completion := str)
      (fun _ => Ok [manual_doc; bare_doc])
      (fun _ _ _ => Ok (py "见手册第三章"))
      (fun c => Ok c)
      (py "如何更换电池?") None Quickstart.QWEN_MODEL [] in
  fst run
  = [] ++ [(Quickstart.QWEN_MODEL,
            build_prompt (py "如何更换电池?") [manual_doc; bare_doc])]
  /\ length (Quickstart.sources (snd run)) = length [manual_doc; bare_doc]
  /\ Quickstart.sources (snd run) !! 1%nat
     = Some (doc_source bare_doc ++ py " 片段 " ++ str_of_nat 2)
  /\ occurs_in
       (py "[片段 " ++ str_of_nat 2 ++ py " | 来源: " ++ doc_source bare_doc
        ++ py "]")
       (build_prompt (py "如何更换电池?") [manual_doc; bare_doc])
  /\ Quickstart.answer (snd run)
     = OnlyLLM.Text (match Ok (py "见手册第三章") with
                     | Ok content => content
                     | Raise _ => py "fail to response"
                     end).
Proof.
  apply (rag_query_sources_match_prompt (completion := str)
           (fun _ => Ok [manual_doc; bare_doc])
           (fun _ _ _ => Ok (py "见手册第三章"))
           (fun c => Ok c)
           (py "如何更换电池?") Quickstart.QWEN_MODEL [] None
           [manual_doc; bare_doc] (py "见手册第三章") 1%nat bare_doc);
    reflexivity.
Defined.

(** X22: [rag_query] turns a failure into an answer: when the retriever
    raises, or when retrieval returned documents and the completion request
    for their prompt raises, the result is the answer
    "查询失败: " followed by the text of the exception, with no sources. *)
Theorem rag_query_reports_failure {completion : Type}
    (retriever : str -> result (list doc))
    (completions_create : str -> str -> bool -> result completion)
    (message_content : completion -> result str)
    (query model : str) (log : list (str * str))
    (retriever_instance : option (str -> result (list doc))) (e : exn) :
  default retriever retriever_instance query = Raise e
  \/ (exists docs,
        docs <> []
        /\ default retriever retriever_instance query = Ok docs
        /\ completions_create model (build_prompt query docs) false
           = Raise e) ->
  snd (Quickstart.rag_query retriever completions_create message_content
         query retriever_instance model log)
  = Quickstart.mkRagResult completion
      (OnlyLLM.Text (py "查询失败: " ++ exn_str e)) [].
Proof.
  intros [Hq | (docs & Hne & Hq & Hc)].
  - by rewrite (rag_query_retrieval_failed retriever completions_create
                  message_content query model log retriever_instance e Hq).
  - destruct docs as [|d docs]; [done |].
    rewrite (rag_query_retrieved retriever completions_create
               message_content query model log retriever_instance d docs Hq).
    by rewrite Hc.
Qed.

Lemma rag_query_reports_failure_witness :
  snd (Quickstart.rag_query (completion := str)
         (fun _ => Ok [manual_doc])
         (fun _ _ _ => Raise (RuntimeError (py "connection refused")))
         (fun c => Ok c)
         (py "如何更换电池?") None Quickstart.QWEN_MODEL [])
  = Quickstart.mkRagResult str
      (OnlyLLM.Text
         (py "查询失败: " ++ exn_str (RuntimeError (py "connection refused"))))
      [].
Proof.
  apply (rag_query_reports_failure (completion := str)
           (fun _ => Ok [manual_doc])
           (fun _ _ _ => Raise (RuntimeError (py "connection refused")))
           (fun c => Ok c)
           (py "如何更换电池?") Quickstart.QWEN_MODEL [] None
           (RuntimeError (py "connection refused"))).
  right. exists [manual_doc]. split; [discriminate |]. split; reflexivity.
Defined.

(** X23: [chat_qwen] records every request, and its [try] block guards
    only the reading of the answer: the call raises exactly when
    [completions.create] raises, with that exception; a completion whose
    content cannot be read gives the text "fail to response", and with
    [stream] set the completion is handed back unread. *)
Theorem chat_qwen_raises_iff {completion : Type}
    (completions_create : str -> str -> bool -> result completion)
    (message_content : completion -> result str)
    (prompt model : str) (stream : bool) (log : list (str * str)) :
  let run :=
    OnlyLLM.chat_qwen completions_create message_content
      prompt model stream log in
  fst run = log ++ [(model, prompt)]
  /\ (forall e, snd run = Raise e <->
                completions_create model prompt stream = Raise e)
  /\ (forall c, completions_create model prompt stream = Ok c ->
        snd run
        = Ok (if stream then OnlyLLM.ContentStream c
              else OnlyLLM.Text (match message_content c with
                                 | Ok content => content
                                 | Raise _ => py "fail to response"
                                 end))).
Proof.
  intros run. subst run. unfold OnlyLLM.chat_qwen.
  destruct (completions_create model prompt stream) as [c|e0].
  - assert (forall c', Ok c = Ok c' -> c' = c) as Hinj by (by intros c' [= <-]).
    destruct stream; [| destruct (message_content c) eqn:Hread];
      cbn [fst snd]; (split; [reflexivity |]);
      (split; [intros e1; split; congruence |]);
      intros c' Hc'; rewrite (Hinj c' Hc'), ?Hread; reflexivity.
  - cbn [fst snd]. split; [reflexivity |].
    split; [intros e1; split; congruence | intros c'; discriminate].
Qed.
